(** * proj: the project-record store and the four CLI commands

    A shallow embedding of [main.go] (the revision with the [stop] command
    and the [TearDown] column): the [projects] table and the four SQL
    statements the program issues, the sidecar file [proj.yml], the shell
    subprocess, and the functions of the program written over an explicit
    world in a small outcome monad (return / [os.Exit] / panic). *)

From Stdlib Require Import ZArith Ascii String DecimalString.
From stdpp Require Import base option list strings gmap.

Local Open Scope string_scope.
Local Open Scope Z_scope.
Local Open Scope list_scope.

(** ** Data model *)

(** [type Project struct]: five strings. *)
Record Project := mkProject {
  ID : string;
  Name : string;
  Path : string;
  Command : string;
  TearDown : string
}.

(** A row of the [projects] table, columns in the order of the
    [CREATE TABLE] statement.  [CreatedAt] holds the clock reading
    ([CURRENT_TIMESTAMP]) of the statement that wrote the row. *)
Record Row := mkRow {
  cId : string;
  cName : string;
  cPath : string;
  cCommand : string;
  cTearDown : string;
  cCreatedAt : Z
}.

(** The table in scan order (ascending rowid): a row written by
    [INSERT OR REPLACE] receives a rowid above every other, so it is last. *)
Abbreviation Table := (list Row).

#[global] Instance Project_eq_dec : EqDecision Project.
Proof. solve_decision. Defined.

#[global] Instance Row_eq_dec : EqDecision Row.
Proof. solve_decision. Defined.

(** ** The SQL statements *)

(** The four statement texts of the [var ( ... )] block. *)
Inductive sql_stmt := table | add | update | find.

#[global] Instance sql_stmt_eq_dec : EqDecision sql_stmt.
Proof. solve_decision. Defined.

(** [Id TEXT NOT NULL PRIMARY KEY]: no two rows share an [Id]. *)
Definition primary_key (t : Table) : Prop := NoDup (cId <$> t).

(** [add]:
    [INSERT OR REPLACE INTO projects(Id, Name, Path, Command, TearDown,
    CreatedAt) values(?, ?, ?, ?, ?, CURRENT_TIMESTAMP)].
    The conflict on the primary key deletes the old row, then the new row
    is inserted. *)
Definition exec_add (now : Z) (args : list string) (t : Table) : option Table :=
  match args with
  | [a1; a2; a3; a4; a5] =>
      Some (filter (λ r, cId r ≠ a1) t ++ [mkRow a1 a2 a3 a4 a5 now])
  | _ => None
  end.

(** [update]:
    [UPDATE projects SET Name = ?, Command = ?, Path = ?, TearDown = ?
    WHERE Id = ?]. *)
Definition set_row (a1 a2 a3 a4 a5 : string) (r : Row) : Row :=
  if decide (cId r = a5)
  then mkRow (cId r) a1 a3 a2 a4 (cCreatedAt r)
  else r.

Definition exec_update (args : list string) (t : Table) : option Table :=
  match args with
  | [a1; a2; a3; a4; a5] => Some (set_row a1 a2 a3 a4 a5 <$> t)
  | _ => None
  end.

(** [find]:
    [SELECT Id, Name, Command, Path, TearDown FROM projects WHERE Name = ?].
    The result rows, each as its list of selected columns. *)
Definition select_cols (r : Row) : list string :=
  [cId r; cName r; cCommand r; cPath r; cTearDown r].

Definition query_find (args : list string) (t : Table) : option (list (list string)) :=
  match args with
  | [a1] => Some (select_cols <$> filter (λ r, cName r = a1) t)
  | _ => None
  end.

(** ** The world outside the program *)

(** A Go [error], kept as the text its [Error()] method returns. *)
Definition error := string.

Definition errors_New (text : string) : error := text.

(** The line feed the format strings end in. *)
Definition nl : string := String (ascii_of_nat 10) EmptyString.

Inductive colour := Red | Green | Blue | Magenta.

(** What a run of the program does that can be seen from outside: a line
    printed through the colour library (the text handed to [color.Red],
    [color.Green], [color.Blue] or [color.Magenta], after formatting), and
    a subprocess started with its argument vector and working directory. *)
Inductive event :=
| Colored (c : colour) (text : string)
| Spawned (argv : list string) (dir : string).

#[global] Instance colour_eq_dec : EqDecision colour.
Proof. solve_decision. Defined.

#[global] Instance event_eq_dec : EqDecision event.
Proof. solve_decision. Defined.

(** The state a run starts from and leaves behind.  [projects] is the table
    of that name in the database file, [None] while it does not exist;
    [files] maps a file to its contents; [clock] is the time in seconds;
    [out] is the trace of events, oldest first. *)
Record World := mkWorld {
  projects : option Table;
  files : gmap string string;
  cwd : string;
  clock : Z;
  out : list event
}.

Definition set_projects (d : option Table) (w : World) : World :=
  mkWorld d (files w) (cwd w) (clock w) (out w).

Definition set_files (f : gmap string string) (w : World) : World :=
  mkWorld (projects w) f (cwd w) (clock w) (out w).

Definition emit (e : event) (w : World) : World :=
  mkWorld (projects w) (files w) (cwd w) (clock w) (out w ++ [e]).

(** How a subprocess ended: it could not be started, or it ran to an exit
    status having written [p_stdout] and [p_stderr]. *)
Inductive proc :=
| NotStarted (e : error)
| Finished (status : Z) (p_stdout p_stderr : string).

(** The collaborators the program calls and does not define: the SQL
    driver's faults, the operating system's files, the YAML library and the
    shell.  A fault is [Some e] when the call fails with error [e]. *)
Record Env := mkEnv {
  open_fault : string → option error;
  stmt_fault : sql_stmt → option error;
  exec_fault : sql_stmt → option error;
  file_id : string → string → string;
  write_fault : string → option error;
  yaml_Marshal : Project → string * option error;
  yaml_Unmarshal : string → option error * Project;
  run_proc : list string → string → proc
}.

(** ** Outcomes *)

(** A call returns, or the process ends in it: [os.Exit code], or a panic
    that nothing recovers.  Deferred calls ([db.Close], [stmt.Close]) print
    nothing and write nothing; they are modelled where they can fail, on
    the return of [SaveProject] and [UpdateProject]. *)
Inductive outcome (A : Type) :=
| Returned (a : A) (w : World)
| Exited (code : Z) (w : World)
| Panicked (v : string) (w : World).

Arguments Returned {A} a w.
Arguments Exited {A} code w.
Arguments Panicked {A} v w.

Definition M (A : Type) : Type := World → outcome A.

#[global] Instance M_ret : MRet M := λ A a w, Returned a w.

#[global] Instance M_bind : MBind M := λ A B f m w,
  match m w with
  | Returned a w' => f a w'
  | Exited c w' => Exited c w'
  | Panicked v w' => Panicked v w'
  end.

Definition get : M World := λ w, Returned w w.
Definition modify (f : World → World) : M unit := λ w, Returned tt (f w).
Definition os_Exit {A} (code : Z) : M A := λ w, Exited code w.
Definition panic {A} (v : string) : M A := λ w, Panicked v w.
Definition when (b : bool) (m : M unit) : M unit := if b then m else mret tt.

(** The world a call leaves, and the status the process ends with: 0 after
    a return from [main], the argument of [os.Exit], 2 after a panic. *)
Definition final {A} (o : outcome A) : World :=
  match o with Returned _ w | Exited _ w | Panicked _ w => w end.

Definition exit_status {A} (o : outcome A) : Z :=
  match o with Returned _ _ => 0 | Exited c _ => c | Panicked _ _ => 2 end.

Definition returns {A} (o : outcome A) : bool :=
  match o with Returned _ _ => true | _ => false end.

(** ** The libraries' calls, over the world *)

(** [*sql.DB], [*sql.Stmt] and [*sql.Row]; a pointer that may be [nil] is
    an [option]. *)
Inductive DB := Conn (filepath : string).
Inductive Stmt := Prepared (q : sql_stmt).
Inductive sql_Row := RowErr (e : error) | RowOf (cols : list string).

Inductive Writer := Buffer.

(** [exec.Cmd], the fields the program touches. *)
Record Cmd := mkCmd {
  Args : list string;
  Dir : string;
  Stdout : option Writer;
  Stderr : option Writer
}.

(** The fields of a [Project] a [Scan] destination can point at. *)
Inductive field := fID | fName | fPath | fCommand | fTearDown.

Definition store (f : field) (v : string) (p : Project) : Project :=
  match f with
  | fID => mkProject v (Name p) (Path p) (Command p) (TearDown p)
  | fName => mkProject (ID p) v (Path p) (Command p) (TearDown p)
  | fPath => mkProject (ID p) (Name p) v (Command p) (TearDown p)
  | fCommand => mkProject (ID p) (Name p) (Path p) v (TearDown p)
  | fTearDown => mkProject (ID p) (Name p) (Path p) (Command p) v
  end.

Fixpoint assign (dest : list field) (cols : list string) (p : Project) : Project :=
  match dest, cols with
  | f :: dest', v :: cols' => assign dest' cols' (store f v p)
  | _, _ => p
  end.

Definition nil_deref : string :=
  "runtime error: invalid memory address or nil pointer dereference".

Definition no_such_table : error := "no such table: projects".
Definition bad_args : error := "sql: wrong number of arguments".
Definition ErrNoRows : error := "sql: no rows in result set".
Definition scan_mismatch : error := "sql: wrong number of destination arguments in Scan".

Definition not_nil {A} (o : option A) : bool :=
  match o with Some _ => true | None => false end.

Definition is_nil {A} (o : option A) : bool := negb (not_nil o).

(** The text of the error [Run] returns after a non-zero exit status. *)
Definition exit_error (status : Z) : error :=
  "exit status " +:+ NilZero.string_of_int (Z.to_int status).

(** [exec.Command(name, arg...)]: the argument vector starts with [name];
    no directory and no writers are set. *)
Definition exec_Command (name : string) (arg : list string) : Cmd :=
  mkCmd (name :: arg) "" None None.

Definition strings_Join (elems : list string) (sep : string) : string :=
  String.concat sep elems.

(** [Scan(dest...)] on a row: the deferred error of the query if there is
    one, else the columns stored through the destinations in order. *)
Definition row_Scan (row : sql_Row) (dest : list field) (p : Project) : Project * option error :=
  match row with
  | RowErr e => (p, Some e)
  | RowOf cols =>
      if decide (length dest = length cols) then (assign dest cols p, None)
      else (p, Some scan_mismatch)
  end.

(** The effect of a statement that runs, on the table: [None] when it
    fails. *)
Definition apply_stmt (now : Z) (q : sql_stmt) (args : list string) (d : option Table) : option (option Table) :=
  match q with
  | table => Some (Some (default [] d))
  | add => t ← d; Some <$> exec_add now args t
  | update => t ← d; Some <$> exec_update args t
  | find => Some d
  end.

Section Program.

Variable env : Env.

(** Compiling a statement fails when the driver says so, and when the
    statement names a table that does not exist. *)
Definition compile (q : sql_stmt) (w : World) : option error :=
  match stmt_fault env q with
  | Some e => Some e
  | None =>
      match q, projects w with
      | table, _ => None
      | _, None => Some no_such_table
      | _, Some _ => None
      end
  end.

Definition run_stmt (q : sql_stmt) (args : list string) : M (option error) := λ w,
  match exec_fault env q with
  | Some e => Returned (Some e) w
  | None =>
      match apply_stmt (clock w) q args (projects w) with
      | Some d => Returned None (set_projects d w)
      | None => Returned (Some bad_args) w
      end
  end.

Definition sql_Open (filepath : string) : option DB * option error :=
  match open_fault env filepath with
  | Some e => (None, Some e)
  | None => (Some (Conn filepath), None)
  end.

Definition db_Exec (d : option DB) (q : sql_stmt) (args : list string) : M (option error) :=
  match d with
  | None => panic nil_deref
  | Some _ =>
      w ← get;
      match compile q w with
      | Some e => mret (Some e)
      | None => run_stmt q args
      end
  end.

Definition db_Prepare (d : option DB) (q : sql_stmt) : M (option Stmt * option error) :=
  match d with
  | None => panic nil_deref
  | Some _ =>
      w ← get;
      match compile q w with
      | Some e => mret (None, Some e)
      | None => mret (Some (Prepared q), None)
      end
  end.

Definition stmt_Exec (stmt : option Stmt) (args : list string) : M (option error) :=
  match stmt with
  | None => panic nil_deref
  | Some (Prepared q) => run_stmt q args
  end.

Definition stmt_Close (stmt : option Stmt) : M unit :=
  match stmt with
  | None => panic nil_deref
  | Some _ => mret tt
  end.

(** [db.QueryRow]: every error is kept in the row until [Scan]; the row is
    the first of the result, and a statement that selects nothing runs and
    gives no row. *)
Definition db_QueryRow (d : option DB) (q : sql_stmt) (args : list string) : M sql_Row :=
  match d with
  | None => panic nil_deref
  | Some _ =>
      w ← get;
      match compile q w, exec_fault env q with
      | Some e, _ | None, Some e => mret (RowErr e)
      | None, None =>
          match q with
          | find =>
              match query_find args (default [] (projects w)) with
              | Some (cols :: _) => mret (RowOf cols)
              | Some [] => mret (RowErr ErrNoRows)
              | None => mret (RowErr bad_args)
              end
          | _ =>
              err ← run_stmt q args;
              mret (RowErr (default ErrNoRows err))
          end
      end
  end.

Definition ioutil_WriteFile (filename data : string) : M (option error) := λ w,
  let f := file_id env (cwd w) filename in
  match write_fault env f with
  | Some e => Returned (Some e) w
  | None => Returned None (set_files (<[f := data]> (files w)) w)
  end.

Definition ioutil_ReadFile (filename : string) : M (string * option error) := λ w,
  match files w !! file_id env (cwd w) filename with
  | Some data => Returned (data, None) w
  | None => Returned ("", Some ("open " +:+ filename +:+ ": no such file or directory")) w
  end.

(** [Run] on a command: the command runs in [Dir], or in the caller's directory
    when [Dir] is empty; standard output reaches the attached buffer, and a
    stream with no writer goes to the null device.  The error is that of a
    failed start, or [exit status N] after a non-zero status.  A subprocess
    is recorded in the trace only when it has been started.  It is taken by
    its result: what the command itself does to files or to the store is
    not part of this model. *)
Definition effective_dir (c : Cmd) (w : World) : string :=
  if decide (Dir c = "") then cwd w else Dir c.

Definition cmd_Run (c : Cmd) : M (option error * string) := λ w,
  let dir := effective_dir c w in
  let w' := emit (Spawned (Args c) dir) w in
  match run_proc env (Args c) dir with
  | NotStarted e => Returned (Some e, "") w
  | Finished status o _ =>
      let captured := match Stdout c with Some Buffer => o | None => "" end in
      if decide (status = 0) then Returned (None, captured) w'
      else Returned (Some (exit_error status), captured) w'
  end.

Definition color_Print (c : colour) (text : string) : M unit :=
  modify (emit (Colored c text)).

(** ** The program *)

(** [cliError]: a red line, then exit with code 1. *)
Definition cliError (err : error) : M unit :=
  color_Print Red ("==> Error: " +:+ err +:+ nl);;
  os_Exit 1.

(** [if err != nil { panic(err) }] *)
Definition panic_on (err : option error) : M unit :=
  match err with
  | Some e => panic e
  | None => mret tt
  end.

Record Proj := mkProj { db : option DB }.

Definition NewProj (db : option DB) : Proj := mkProj db.

Definition InitDB (filepath : string) : M (option DB) :=
  let '(db, err) := sql_Open filepath in
  when (not_nil err) (cliError (errors_New "Could not create database."));;
  when (is_nil db) (cliError (errors_New "DB Not found!"));;
  mret db.

Definition CreateTable (db : option DB) : M unit :=
  err ← db_Exec db table [];
  when (not_nil err) (cliError (errors_New "Failed to create database table.")).

(** The error of [Prepare] is overwritten before it is read; the deferred
    [Close] runs when the function returns. *)
Definition SaveProject (proj : Proj) (project : Project) : M unit :=
  '(stmt, err) ← db_Prepare (db proj) add;
  err ← stmt_Exec stmt
    [ID project; Name project; Path project; Command project; TearDown project];
  when (not_nil err) (cliError (errors_New "Failed to save project."));;
  stmt_Close stmt.

Definition UpdateProject (proj : Proj) (project : Project) : M unit :=
  '(stmt, err) ← db_Prepare (db proj) update;
  when (not_nil err) (cliError (errors_New "Failed to update project."));;
  err ← stmt_Exec stmt
    [Name project; Command project; Path project; TearDown project; ID project];
  when (not_nil err) (cliError (errors_New "Failed to update project."));;
  stmt_Close stmt.

Definition zero_Project : Project := mkProject "" "" "" "" "".

Definition LoadProject (proj : Proj) (name : string) : M Project :=
  row ← db_QueryRow (db proj) find [name];
  let '(project, err) :=
    row_Scan row [fID; fName; fCommand; fPath; fTearDown] zero_Project in
  when (not_nil err) (cliError (errors_New "Failed to load project."));;
  mret project.

Definition printCommand (cmd : Cmd) : M unit :=
  color_Print Magenta ("==> Executing: " +:+ strings_Join (Args cmd) " " +:+ nl).

Definition printOutput (outs : string) : M unit :=
  when (bool_decide (0 < String.length outs)%nat)
    (color_Print Blue ("==> Output: " +:+ outs +:+ nl)).

Definition CreateProjectFile (proj : Proj) (project : Project) : M unit :=
  let '(data, err) := yaml_Marshal env project in
  panic_on err;;
  err ← ioutil_WriteFile (Path project +:+ "/proj.yml") data;
  panic_on err.

Definition CommitChanges (proj : Proj) : M unit :=
  '(data, err) ← ioutil_ReadFile "./proj.yml";
  panic_on err;;
  let '(err, project) := yaml_Unmarshal env data in
  panic_on err;;
  UpdateProject proj project.

Definition InitProject (proj : Proj) (project : Project) : M unit :=
  CreateProjectFile proj project;;
  SaveProject proj project.

Definition with_Stdout (wr : option Writer) (c : Cmd) : Cmd :=
  mkCmd (Args c) (Dir c) wr (Stderr c).

(** [StartProject]: [sh -c] with the command string and then the path, a
    buffer on standard output; the output is printed after a run without
    error. *)
Definition StartProject (proj : Proj) (name : string) : M unit :=
  project ← LoadProject proj name;
  let cmd := exec_Command "sh" ["-c"; Command project; Path project] in
  let cmd := with_Stdout (Some Buffer) cmd in
  printCommand cmd;;
  '(err, cmdOutput) ← cmd_Run cmd;
  match err with
  | Some e => cliError e
  | None => mret tt
  end;;
  printOutput cmdOutput.

(** [StopProject]: the same with the tear-down command. *)
Definition StopProject (proj : Proj) (name : string) : M unit :=
  project ← LoadProject proj name;
  let cmd := exec_Command "sh" ["-c"; TearDown project; Path project] in
  let cmd := with_Stdout (Some Buffer) cmd in
  printCommand cmd;;
  '(err, cmdOutput) ← cmd_Run cmd;
  match err with
  | Some e => cliError e
  | None => mret tt
  end;;
  printOutput cmdOutput.

(** The parsed command line: one of the four commands with its flags
    ([teardown] is empty when the flag is not given).  A command line that
    the parser rejects ends the process inside [kingpin.MustParse] and is
    not an input of [main] here. *)
Inductive cli :=
| initProject (name path command teardown : string)
| commit
| start (name : string)
| stop (name : string).

Definition DbPath : string := "/tmp/projects.db".

Definition main (args : cli) : M unit :=
  db ← InitDB DbPath;
  CreateTable db;;
  let proj := NewProj db in
  match args with
  | initProject name path command teardown =>
      InitProject proj (mkProject "123" name path command teardown)
  | commit =>
      color_Print Green "Updating...";;
      CommitChanges proj
  | start name =>
      color_Print Green ("Starting " +:+ name);;
      StartProject proj name
  | stop name =>
      color_Print Blue ("Stopping: " +:+ name);;
      StopProject proj name
  end.

End Program.

(** ** A concrete environment

    No faults; a file is identified by the directory and the name with a
    leading [./] dropped; the codec writes the five fields one per line;
    the shell knows three commands. *)

Fixpoint lines_of (acc : string) (s : string) : list string :=
  match s with
  | EmptyString => [acc]
  | String c s' =>
      if Ascii.eqb c (ascii_of_nat 10) then acc :: lines_of "" s'
      else lines_of (acc +:+ String c EmptyString) s'
  end.

Definition demo_Marshal (p : Project) : string * option error :=
  (strings_Join [ID p; Name p; Path p; Command p; TearDown p] nl, None).

Definition demo_Unmarshal (data : string) : option error * Project :=
  match lines_of "" data with
  | [i; n; p; c; t] => (None, mkProject i n p c t)
  | _ => (Some "yaml: unmarshal errors", zero_Project)
  end.

Definition demo_file_id (dir name : string) : string :=
  match name with
  | String "/" _ => name
  | String "." (String "/" rest) => dir +:+ "/" +:+ rest
  | _ => dir +:+ "/" +:+ name
  end.

Definition demo_run (argv : list string) (dir : string) : proc :=
  match argv with
  | [_; _; "make up"; _] => Finished 0 "started" ""
  | [_; _; "make down"; _] => Finished 0 "" ""
  | [_; _; "false"; _] => Finished 1 "" ""
  | _ => Finished 3 "boom" "sh: not found"
  end.

Definition demo_env : Env :=
  mkEnv (λ _, None) (λ _, None) (λ _, None) demo_file_id (λ _, None)
        demo_Marshal demo_Unmarshal demo_run.

(** A machine on which the program has never run. *)
Definition fresh : World := mkWorld None ∅ "/home/dev/a" 100 [].


(** ** Vocabulary of the statements *)

(** The row an [add] writes for a record at clock reading [now], and the
    record a row holds. *)
Definition row_of (now : Z) (p : Project) : Row :=
  mkRow (ID p) (Name p) (Path p) (Command p) (TearDown p) now.

Definition record_of (r : Row) : Project :=
  mkProject (cId r) (cName r) (cPath r) (cCommand r) (cTearDown r).

(** The line [cliError] prints for a message. *)
Definition err_line (msg : string) : event :=
  Colored Red ("==> Error: " +:+ msg +:+ nl).

(** Time passing between two calls. *)
Definition tick (dt : Z) (w : World) : World :=
  mkWorld (projects w) (files w) (cwd w) (clock w + dt) (out w).

(** [contains sub s]: [sub] occurs in [s]. *)
Fixpoint contains (sub s : string) : bool :=
  String.prefix sub s ||
  match s with
  | EmptyString => false
  | String _ s' => contains sub s'
  end.

(** What happens between two runs: the program runs on some command line
    in some environment, or the outside changes files, directory and
    clock.  Only the program writes the table. *)
Inductive step : World → World → Prop :=
| step_run env args w :
    step w (final (main env args w))
| step_outside w f d c :
    clock w ≤ c → step w (mkWorld (projects w) f d c (out w)).

Definition reachable (w : World) : Prop :=
  ∃ w0, projects w0 = None ∧ rtc step w0 w.

(** At most one row, and its [Id] is the constant of [init]. *)
Definition single_init_row (w : World) : Prop :=
  match projects w with
  | None => True
  | Some t => (length t ≤ 1)%nat ∧ Forall (λ r, cId r = "123") t
  end.

(** [keeps m φ]: [m] preserves [single_init_row] however it ends, and the
    value it returns satisfies [φ]. *)
Definition keeps {A} (m : M A) (φ : A → Prop) : Prop :=
  ∀ w, single_init_row w →
    single_init_row (final (m w)) ∧ ∀ a w', m w = Returned a w' → φ a.


(** The update as the specification words it: the row whose [Name] is the
    record's takes the record's path, command and tear-down. *)
Definition spec_update_by_name (p : Project) (t : Table) : Table :=
  (λ r, if decide (cName r = Name p)
        then mkRow (cId r) (cName r) (Path p) (Command p) (TearDown p) (cCreatedAt r)
        else r) <$> t.

(** The argument vector of the shell, the trace once the command line is
    announced, and once the subprocess has been started from [w]. *)
Definition sh_argv (command path : string) : list string :=
  ["sh"; "-c"; command; path].

Definition announced (command path : string) (w : World) : World :=
  emit (Colored Magenta
          ("==> Executing: " +:+ strings_Join (sh_argv command path) " " +:+ nl)) w.

Definition spawned (command path : string) (w : World) : World :=
  emit (Spawned (sh_argv command path) (cwd w)) (announced command path w).

(** What [StartProject] and [StopProject] do once the record is loaded,
    for the command string they picked. *)
Definition run_loaded (env : Env) (command path : string) : M unit := λ w,
  match run_proc env (sh_argv command path) (cwd w) with
  | NotStarted e => Exited 1 (emit (err_line e) (announced command path w))
  | Finished status o _ =>
      if decide (status = 0) then printOutput o (spawned command path w)
      else Exited 1 (emit (err_line (exit_error status)) (spawned command path w))
  end.

(** The handle [main] works with, and the world once the table exists. *)
Definition the_proj : Proj := NewProj (Some (Conn DbPath)).

Definition with_table (w : World) : World :=
  set_projects (Some (default [] (projects w))) w.

(** The same machine once the table exists. *)
Definition fresh_table : World := mkWorld (Some []) ∅ "/home/dev/a" 100 [].

(** Worlds used as concrete inputs: after [init] of project [a]; and the
    same with the sidecar file renamed to [b] by hand. *)
Definition world_a : World :=
  final (main demo_env (initProject "a" "/home/dev/a" "make up" "make down") fresh).

Definition world_a_edited : World :=
  set_files
    (<["/home/dev/a/proj.yml" :=
        strings_Join ["123"; "b"; "/srv/b"; "run"; "halt"] nl]>
       (files world_a))
    (tick 60 world_a).

(** After [init] of a project whose command the shell does not know. *)
Definition world_z : World :=
  final (main demo_env (initProject "z" "/home/dev/a" "zzz" "yyy") fresh).

(** ** Vocabulary of the further properties *)

(** The rows of the table, none while it does not exist. *)
Definition rows (w : World) : list Row := default [] (projects w).

(** The two streams of the terminal, and where the text of an event goes.
    Every line of this revision is printed through the colour library, which
    writes on its [Output]: standard output, unless the program sets it, and
    the program never does.  The start of a subprocess prints nothing. *)
Inductive stream := stdout | stderr.

#[global] Instance stream_eq_dec : EqDecision stream.
Proof. solve_decision. Defined.




(** [preserves P m φ]: [m] keeps [P] however it ends, and the value it
    returns satisfies [φ]. *)
Definition preserves {A} (P : World → Prop) (m : M A) (φ : A → Prop) : Prop :=
  ∀ w, P w → P (final (m w)) ∧ ∀ a w', m w = Returned a w' → φ a.

(** [P] does not look at the trace; [P] survives the statement [q] on any
    arguments; [P] survives the writing of a file. *)
Definition out_stable (P : World → Prop) : Prop :=
  ∀ w e, P w → P (emit e w).

Definition stmt_stable (P : World → Prop) (q : sql_stmt) : Prop :=
  ∀ w args d, P w →
    apply_stmt (clock w) q args (projects w) = Some d → P (set_projects d w).

Definition write_stable (P : World → Prop) : Prop :=
  ∀ w f data, P w → P (set_files (<[f := data]> (files w)) w).

(** What a command needs of [P] beyond the creation of the table: [init]
    writes the sidecar file and runs the insert, [commit] runs the update,
    [start] and [stop] only query. *)
Definition command_stable (P : World → Prop) (args : cli) : Prop :=
  match args with
  | initProject _ _ _ _ => write_stable P ∧ stmt_stable P add
  | commit => stmt_stable P update
  | start _ | stop _ => True
  end.

(** [demo_env] on a machine without a shell. *)
Definition no_shell_env : Env :=
  mkEnv (λ _, None) (λ _, None) (λ _, None) demo_file_id (λ _, None)
        demo_Marshal demo_Unmarshal
        (λ _ _, NotStarted "exec: sh: executable file not found in $PATH").

(** ** The earlier revision of the program

    The first [main.go] of the source: four fields and no tear-down, the
    commands [init], [commit] and [start], every failure a panic, and the
    subprocess run through [Output].  Its table, world and outcomes are its
    own; errors, colours, commands and subprocess results are shared with
    the later revision. *)

Module V1.

Record Project := mkProject {
  ID : string;
  Name : string;
  Path : string;
  Command : string
}.

Record Row := mkRow {
  cId : string;
  cName : string;
  cPath : string;
  cCommand : string;
  cCreatedAt : Z
}.

(** [table], [sqlAdd], [update] and [find] of [CreateTable], [SaveProject],
    [UpdateProject] and [LoadProject]. *)
Inductive sql_stmt := table | sqlAdd | update | find.

(** [INSERT OR REPLACE INTO projects(Id, Name, Path, Command, CreatedAt)
    values(?, ?, ?, ?, CURRENT_TIMESTAMP)]. *)
Definition exec_add (now : Z) (args : list string) (t : list Row) : option (list Row) :=
  match args with
  | [a1; a2; a3; a4] =>
      Some (filter (λ r, cId r ≠ a1) t ++ [mkRow a1 a2 a3 a4 now])
  | _ => None
  end.

(** [UPDATE projects SET Name = ?, Command = ?, Path = ? WHERE Id = ?]. *)
Definition set_row (a1 a2 a3 a4 : string) (r : Row) : Row :=
  if decide (cId r = a4)
  then mkRow (cId r) a1 a3 a2 (cCreatedAt r)
  else r.

Definition exec_update (args : list string) (t : list Row) : option (list Row) :=
  match args with
  | [a1; a2; a3; a4] => Some (set_row a1 a2 a3 a4 <$> t)
  | _ => None
  end.

(** [SELECT Id, Name, Command, Path FROM projects WHERE Name = ?]. *)
Definition select_cols (r : Row) : list string :=
  [cId r; cName r; cCommand r; cPath r].

Definition query_find (args : list string) (t : list Row) : option (list (list string)) :=
  match args with
  | [a1] => Some (select_cols <$> filter (λ r, cName r = a1) t)
  | _ => None
  end.

(** Besides coloured lines and subprocesses: a line of [fmt.Println], a
    text written to standard error, and a line of the standard logger (the
    text after its time stamp). *)
Inductive event :=
| Colored (c : colour) (text : string)
| Printed (line : string)
| ErrWritten (text : string)
| Logged (line : string)
| Spawned (argv : list string) (dir : string).

Record World := mkWorld {
  projects : option (list Row);
  files : gmap string string;
  cwd : string;
  clock : Z;
  out : list event
}.

Definition set_projects (d : option (list Row)) (w : World) : World :=
  mkWorld d (files w) (cwd w) (clock w) (out w).

Definition set_files (f : gmap string string) (w : World) : World :=
  mkWorld (projects w) f (cwd w) (clock w) (out w).

Definition emit (e : event) (w : World) : World :=
  mkWorld (projects w) (files w) (cwd w) (clock w) (out w ++ [e]).

Record Env := mkEnv {
  open_fault : string → option error;
  stmt_fault : sql_stmt → option error;
  exec_fault : sql_stmt → option error;
  file_id : string → string → string;
  write_fault : string → option error;
  yaml_Marshal : Project → string * option error;
  yaml_Unmarshal : string → option error * Project;
  run_proc : list string → string → proc
}.

Inductive outcome (A : Type) :=
| Returned (a : A) (w : World)
| Exited (code : Z) (w : World)
| Panicked (v : string) (w : World).

Arguments Returned {A} a w.
Arguments Exited {A} code w.
Arguments Panicked {A} v w.

Definition M (A : Type) : Type := World → outcome A.

#[global] Instance M_ret : MRet M := λ A a w, Returned a w.

#[global] Instance M_bind : MBind M := λ A B f m w,
  match m w with
  | Returned a w' => f a w'
  | Exited c w' => Exited c w'
  | Panicked v w' => Panicked v w'
  end.

Definition get : M World := λ w, Returned w w.
Definition modify (f : World → World) : M unit := λ w, Returned tt (f w).
Definition panic {A} (v : string) : M A := λ w, Panicked v w.

Definition final {A} (o : outcome A) : World :=
  match o with Returned _ w | Exited _ w | Panicked _ w => w end.

Definition exit_status {A} (o : outcome A) : Z :=
  match o with Returned _ _ => 0 | Exited c _ => c | Panicked _ _ => 2 end.

Inductive DB := Conn (filepath : string).
Inductive Stmt := Prepared (q : sql_stmt).
Inductive sql_Row := RowErr (e : error) | RowOf (cols : list string).

Inductive field := fID | fName | fPath | fCommand.

Definition store (f : field) (v : string) (p : Project) : Project :=
  match f with
  | fID => mkProject v (Name p) (Path p) (Command p)
  | fName => mkProject (ID p) v (Path p) (Command p)
  | fPath => mkProject (ID p) (Name p) v (Command p)
  | fCommand => mkProject (ID p) (Name p) (Path p) v
  end.

Fixpoint assign (dest : list field) (cols : list string) (p : Project) : Project :=
  match dest, cols with
  | f :: dest', v :: cols' => assign dest' cols' (store f v p)
  | _, _ => p
  end.

Definition row_Scan (row : sql_Row) (dest : list field) (p : Project) : Project * option error :=
  match row with
  | RowErr e => (p, Some e)
  | RowOf cols =>
      if decide (length dest = length cols) then (assign dest cols p, None)
      else (p, Some scan_mismatch)
  end.

Definition apply_stmt (now : Z) (q : sql_stmt) (args : list string) (d : option (list Row)) : option (option (list Row)) :=
  match q with
  | table => Some (Some (default [] d))
  | sqlAdd => t ← d; Some <$> exec_add now args t
  | update => t ← d; Some <$> exec_update args t
  | find => Some d
  end.

Section Program.

Variable env : Env.

Definition compile (q : sql_stmt) (w : World) : option error :=
  match stmt_fault env q with
  | Some e => Some e
  | None =>
      match q, projects w with
      | table, _ => None
      | _, None => Some no_such_table
      | _, Some _ => None
      end
  end.

Definition run_stmt (q : sql_stmt) (args : list string) : M (option error) := λ w,
  match exec_fault env q with
  | Some e => Returned (Some e) w
  | None =>
      match apply_stmt (clock w) q args (projects w) with
      | Some d => Returned None (set_projects d w)
      | None => Returned (Some bad_args) w
      end
  end.

Definition sql_Open (filepath : string) : option DB * option error :=
  match open_fault env filepath with
  | Some e => (None, Some e)
  | None => (Some (Conn filepath), None)
  end.

Definition db_Exec (d : option DB) (q : sql_stmt) (args : list string) : M (option error) :=
  match d with
  | None => panic nil_deref
  | Some _ =>
      w ← get;
      match compile q w with
      | Some e => mret (Some e)
      | None => run_stmt q args
      end
  end.

Definition db_Prepare (d : option DB) (q : sql_stmt) : M (option Stmt * option error) :=
  match d with
  | None => panic nil_deref
  | Some _ =>
      w ← get;
      match compile q w with
      | Some e => mret (None, Some e)
      | None => mret (Some (Prepared q), None)
      end
  end.

Definition stmt_Exec (stmt : option Stmt) (args : list string) : M (option error) :=
  match stmt with
  | None => panic nil_deref
  | Some (Prepared q) => run_stmt q args
  end.

Definition stmt_Close (stmt : option Stmt) : M unit :=
  match stmt with
  | None => panic nil_deref
  | Some _ => mret tt
  end.

Definition db_QueryRow (d : option DB) (q : sql_stmt) (args : list string) : M sql_Row :=
  match d with
  | None => panic nil_deref
  | Some _ =>
      w ← get;
      match compile q w, exec_fault env q with
      | Some e, _ | None, Some e => mret (RowErr e)
      | None, None =>
          match q with
          | find =>
              match query_find args (default [] (projects w)) with
              | Some (cols :: _) => mret (RowOf cols)
              | Some [] => mret (RowErr ErrNoRows)
              | None => mret (RowErr bad_args)
              end
          | _ =>
              err ← run_stmt q args;
              mret (RowErr (default ErrNoRows err))
          end
      end
  end.

Definition ioutil_WriteFile (filename data : string) : M (option error) := λ w,
  let f := file_id env (cwd w) filename in
  match write_fault env f with
  | Some e => Returned (Some e) w
  | None => Returned None (set_files (<[f := data]> (files w)) w)
  end.

Definition ioutil_ReadFile (filename : string) : M (string * option error) := λ w,
  match files w !! file_id env (cwd w) filename with
  | Some data => Returned (data, None) w
  | None => Returned ("", Some ("open " +:+ filename +:+ ": no such file or directory")) w
  end.

(** [Output] on a command: refused when a writer is already set on
    standard output; else the command runs as with [Run], its standard
    output is collected and returned together with the error, also after a
    non-zero status.  As in the later revision a subprocess is recorded only
    when it has been started, and is taken by its result. *)
Definition cmd_Output (c : Cmd) : M (string * option error) := λ w,
  match Stdout c with
  | Some _ => Returned ("", Some "exec: Stdout already set") w
  | None =>
      let dir := if decide (Dir c = "") then cwd w else Dir c in
      let w' := emit (Spawned (Args c) dir) w in
      match run_proc env (Args c) dir with
      | NotStarted e => Returned ("", Some e) w
      | Finished status o _ =>
          if decide (status = 0) then Returned (o, None) w'
          else Returned (o, Some (exit_error status)) w'
      end
  end.

Definition color_Print (c : colour) (text : string) : M unit :=
  modify (emit (Colored c text)).

Definition fmt_Println (line : string) : M unit :=
  modify (emit (Printed line)).

(** [if err != nil { panic(err) }] and [if err != nil { log.Panic(err) }]:
    the logger prints the error, then panics with its text. *)
Definition panic_on (err : option error) : M unit :=
  match err with
  | Some e => panic e
  | None => mret tt
  end.

Definition log_Panic_on (err : option error) : M unit :=
  match err with
  | Some e => modify (emit (Logged e));; panic e
  | None => mret tt
  end.

Record Proj := mkProj { db : option DB }.

Definition NewProj (db : option DB) : Proj := mkProj db.

Definition InitDB (filepath : string) : M (option DB) :=
  let '(db, err) := sql_Open filepath in
  panic_on err;;
  match db with
  | None => panic "DB Not found!"
  | Some _ => mret tt
  end;;
  mret db.

Definition CreateTable (db : option DB) : M unit :=
  err ← db_Exec db table [];
  panic_on err.

Definition SaveProject (proj : Proj) (project : Project) : M unit :=
  '(stmt, err) ← db_Prepare (db proj) sqlAdd;
  log_Panic_on err;;
  err ← stmt_Exec stmt [ID project; Name project; Path project; Command project];
  log_Panic_on err;;
  stmt_Close stmt.

Definition UpdateProject (proj : Proj) (project : Project) : M unit :=
  '(stmt, err) ← db_Prepare (db proj) update;
  log_Panic_on err;;
  err ← stmt_Exec stmt [Name project; Command project; Path project; ID project];
  log_Panic_on err;;
  stmt_Close stmt.

Definition zero_Project : Project := mkProject "" "" "" "".

Definition LoadProject (proj : Proj) (name : string) : M Project :=
  row ← db_QueryRow (db proj) find [name];
  let '(project, err) := row_Scan row [fID; fName; fCommand; fPath] zero_Project in
  log_Panic_on err;;
  mret project.

Definition printCommand (command : string) : M unit :=
  color_Print Magenta ("==> Executing: " +:+ command +:+ nl).

Definition printError (err : option error) : M unit :=
  match err with
  | Some e => modify (emit (ErrWritten ("==> Error: " +:+ e +:+ nl)))
  | None => mret tt
  end.

Definition printOutput (outs : string) : M unit :=
  if bool_decide (0 < String.length outs)%nat
  then color_Print Blue ("==> Output: " +:+ outs +:+ nl)
  else mret tt.

Definition CreateProjectFile (proj : Proj) (project : Project) : M unit :=
  let '(data, err) := yaml_Marshal env project in
  panic_on err;;
  err ← ioutil_WriteFile (Path project +:+ "/proj.yml") data;
  panic_on err.

Definition CommitChanges (proj : Proj) : M unit :=
  '(data, err) ← ioutil_ReadFile "./proj.yml";
  panic_on err;;
  let '(err, project) := yaml_Unmarshal env data in
  panic_on err;;
  UpdateProject proj project.

Definition InitProject (proj : Proj) (project : Project) : M unit :=
  CreateProjectFile proj project;;
  SaveProject proj project.

(** The subprocess runs first; then the command line, the error and the
    output are printed. *)
Definition StartProject (proj : Proj) (name : string) : M unit :=
  project ← LoadProject proj name;
  '(out, err) ← cmd_Output (exec_Command "sh" ["-c"; Command project; Path project]);
  printCommand (Command project +:+ Path project);;
  printError err;;
  printOutput out.

Inductive cli :=
| initProject (name path command : string)
| commit
| start (name : string).

Definition DbPath : string := "projects.db".

Definition main (args : cli) : M unit :=
  db ← InitDB DbPath;
  CreateTable db;;
  let proj := NewProj db in
  match args with
  | initProject name path command =>
      fmt_Println name;;
      InitProject proj (mkProject "123" name path command)
  | commit =>
      fmt_Println "Updating...";;
      CommitChanges proj
  | start name =>
      fmt_Println ("Starting " +:+ name);;
      StartProject proj name
  end.

End Program.

(** The record of a row, the row of a record, and the trace of a start
    that got as far as the subprocess. *)
Definition record_of (r : Row) : Project :=
  mkProject (cId r) (cName r) (cPath r) (cCommand r).

Definition row_of (now : Z) (p : Project) : Row :=
  mkRow (ID p) (Name p) (Path p) (Command p) now.

Definition announce (project : Project) (w : World) : World :=
  emit (Colored Magenta
          ("==> Executing: " +:+ (Command project +:+ Path project) +:+ nl)) w.

Definition started (project : Project) (w : World) : World :=
  emit (Colored Magenta
          ("==> Executing: " +:+ (Command project +:+ Path project) +:+ nl))
    (emit (Spawned ["sh"; "-c"; Command project; Path project] (cwd w)) w).

(** What [StartProject] does once the record is loaded. *)
Definition reported (env : Env) (project : Project) : M unit := λ w,
  match run_proc env ["sh"; "-c"; Command project; Path project] (cwd w) with
  | NotStarted e =>
      Returned tt (emit (ErrWritten ("==> Error: " +:+ e +:+ nl)) (announce project w))
  | Finished status o _ =>
      if decide (status = 0) then printOutput o (started project w)
      else printOutput o
             (emit (ErrWritten ("==> Error: " +:+ exit_error status +:+ nl))
                   (started project w))
  end.

(** A machine for examples: no faults, one stored project whose command
    ends with status 3 having written [partial]. *)
Definition demo_env : Env :=
  mkEnv (λ _, None) (λ _, None) (λ _, None) (λ d n, d +:+ "/" +:+ n) (λ _, None)
        (λ p, (strings_Join [ID p; Name p; Path p; Command p] nl, None))
        (λ _, (Some "yaml: unmarshal errors", zero_Project))
        (λ _ _, Finished 3 "partial" "bad").

Definition demo_world : World :=
  mkWorld (Some [mkRow "123" "a" "/home/dev/a" "make up" 100]) ∅ "/home/dev/a" 200 [].

Definition the_proj : Proj := NewProj (Some (Conn DbPath)).

End V1.

Ltac run_M :=
  unfold mbind, M_bind, mret, M_ret, get, modify, panic, os_Exit, when.

(** ** The statements on the table *)

Section TableFacts.

Implicit Types (t : Table) (r : Row) (p : Project).

Lemma filter_other_id_fresh (i : string) t :
  Forall (λ r, cId r ≠ i) t → filter (λ r, cId r ≠ i) t = t.
Proof.
  induction 1 as [|r t Hr _ IH]; [done|].
  rewrite filter_cons_True by done. by rewrite IH.
Qed.

Lemma filter_other_id_length (i : string) t :
  NoDup (cId <$> t) → i ∈ cId <$> t →
  S (length (filter (λ r, cId r ≠ i) t)) = length t.
Proof.
  induction t as [|r t IH]; intros Hnd Hin; [by apply elem_of_nil in Hin|].
  rewrite fmap_cons in Hnd, Hin. apply NoDup_cons in Hnd as [Hr Hnd].
  destruct (decide (cId r = i)) as [<-|Hne].
  - rewrite filter_cons_False by (intros ?; done).
    rewrite filter_other_id_fresh; [done|].
    apply Forall_forall. intros r' Hr' Heq. apply Hr.
    rewrite <- Heq. by apply list_elem_of_fmap_2.
  - rewrite filter_cons_True by done. cbn.
    apply elem_of_cons in Hin as [Hin|Hin]; [congruence|].
    by rewrite IH.
Qed.

Lemma filter_other_id_NoDup (i : string) t :
  NoDup (cId <$> t) → NoDup (cId <$> filter (λ r, cId r ≠ i) t).
Proof.
  induction t as [|r t IH]; [done|].
  rewrite fmap_cons. intros [Hr Hnd]%NoDup_cons.
  destruct (decide (cId r = i)).
  - rewrite filter_cons_False by (intros ?; done). auto.
  - rewrite filter_cons_True by done. rewrite fmap_cons.
    apply NoDup_cons; split; [|auto].
    intros (r' & Heq & Hin)%list_elem_of_fmap.
    apply list_elem_of_filter in Hin as [_ Hin].
    apply Hr. rewrite Heq. by apply list_elem_of_fmap_2.
Qed.

Lemma add_primary_key now p t :
  primary_key t →
  primary_key (filter (λ r, cId r ≠ ID p) t ++ [row_of now p]).
Proof.
  unfold primary_key. intros Hnd. rewrite fmap_app.
  apply NoDup_app; split_and!.
  - by apply filter_other_id_NoDup.
  - intros i (r & -> & Hin)%list_elem_of_fmap Hi.
    apply list_elem_of_filter in Hin as [Hne _].
    cbn in Hi. apply list_elem_of_singleton in Hi. done.
  - cbn. apply NoDup_singleton.
Qed.

Lemma set_row_id a1 a2 a3 a4 a5 r : cId (set_row a1 a2 a3 a4 a5 r) = cId r.
Proof. unfold set_row. by case_decide. Qed.

Lemma update_ids a1 a2 a3 a4 a5 t :
  cId <$> (set_row a1 a2 a3 a4 a5 <$> t) = cId <$> t.
Proof.
  rewrite <- list_fmap_compose. apply list_fmap_ext.
  intros _ r _. apply set_row_id.
Qed.

Lemma filter_name_absent (n : string) t :
  Forall (λ r, cName r ≠ n) t → filter (λ r, cName r = n) t = [].
Proof.
  induction 1 as [|r t Hr _ IH]; [done|].
  by rewrite filter_cons_False.
Qed.

Lemma filter_other_id_add (i : string) t r :
  cId r = i →
  filter (λ r, cId r ≠ i) (filter (λ r, cId r ≠ i) t ++ [r])
    = filter (λ r, cId r ≠ i) t.
Proof.
  intros Hr. rewrite filter_app, list_filter_filter.
  rewrite filter_cons_False by (intros ?; done).
  rewrite filter_nil, app_nil_r.
  apply list_filter_iff. tauto.
Qed.

Lemma record_of_row_of now p : record_of (row_of now p) = p.
Proof. by destruct p. Qed.

Lemma filter_all_same_id (i : string) t :
  Forall (λ r, cId r = i) t → filter (λ r, cId r ≠ i) t = [].
Proof.
  induction 1 as [|r t Hr _ IH]; [done|].
  by rewrite filter_cons_False by (intros ?; done).
Qed.

End TableFacts.

(** ** The program's functions, case by case *)

Section ProgramFacts.

Variable env : Env.

Implicit Types (w : World) (proj : Proj) (p project : Project) (c : DB).


Lemma color_Print_then {A} col text (k : M A) w :
  (color_Print col text ;; k) w = k (emit (Colored col text) w).
Proof. reflexivity. Qed.

Lemma printOutput_cases outs w :
  printOutput outs w =
    Returned tt (if decide (outs = "") then w
                 else emit (Colored Blue ("==> Output: " +:+ outs +:+ nl)) w).
Proof. by destruct outs. Qed.

(** *** LoadProject *)


Lemma LoadProject_found proj c name w t r rest :
  db proj = Some c → projects w = Some t →
  stmt_fault env find = None → exec_fault env find = None →
  filter (λ r, cName r = name) t = r :: rest →
  LoadProject env proj name w = Returned (record_of r) w.
Proof.
  intros Hdb Ht Hs He Hf.
  unfold LoadProject, db_QueryRow, compile, query_find. rewrite Hdb. run_M.
  rewrite Hs, He, Ht. change (default [] (Some t)) with t.
  rewrite Hf. reflexivity.
Qed.

Lemma LoadProject_absent proj c name w :
  db proj = Some c →
  (∀ t, projects w = Some t → Forall (λ r, cName r ≠ name) t) →
  LoadProject env proj name w = Exited 1 (emit (err_line "Failed to load project.") w).
Proof.
  intros Hdb Habs.
  unfold LoadProject, db_QueryRow, compile, query_find. rewrite Hdb. run_M.
  destruct (stmt_fault env find); [reflexivity|].
  destruct (projects w) as [t|] eqn:Ht; [|reflexivity].
  destruct (exec_fault env find); [reflexivity|].
  specialize (Habs t eq_refl). change (default [] (Some t)) with t.
  by rewrite (filter_name_absent name t Habs).
Qed.

(** Whatever the table and the faults, the lookup returns a row of that
    name or ends in [cliError]. *)
Lemma LoadProject_cases proj c name w :
  db proj = Some c →
  (∃ t r, projects w = Some t ∧ r ∈ t ∧ cName r = name ∧
          LoadProject env proj name w = Returned (record_of r) w) ∨
  LoadProject env proj name w = Exited 1 (emit (err_line "Failed to load project.") w).
Proof.
  intros Hdb.
  unfold LoadProject, db_QueryRow, compile, query_find. rewrite Hdb. run_M.
  destruct (stmt_fault env find); [by right|].
  destruct (projects w) as [t|] eqn:Ht; [|by right].
  destruct (exec_fault env find); [by right|].
  change (default [] (Some t)) with t.
  destruct (filter (λ r, cName r = name) t) as [|r rest] eqn:Hf; [by right|].
  left. exists t, r.
  assert (r ∈ filter (λ r, cName r = name) t) as Hin by (rewrite Hf; left).
  apply list_elem_of_filter in Hin as [Hn Hin]. done.
Qed.

(** *** SaveProject *)

Lemma SaveProject_ok proj c p w t :
  db proj = Some c → projects w = Some t →
  stmt_fault env add = None → exec_fault env add = None →
  SaveProject env proj p w =
    Returned tt (set_projects
      (Some (filter (λ r, cId r ≠ ID p) t ++ [row_of (clock w) p])) w).
Proof.
  intros Hdb Ht Hs He.
  unfold SaveProject, db_Prepare, stmt_Exec, stmt_Close, run_stmt, compile.
  rewrite Hdb. run_M. rewrite Hs, Ht, He. cbn. rewrite Ht. reflexivity.
Qed.

Lemma SaveProject_unprepared proj c p w e :
  db proj = Some c → compile env add w = Some e →
  SaveProject env proj p w = Panicked nil_deref w.
Proof.
  intros Hdb Hc. unfold SaveProject, db_Prepare. rewrite Hdb. run_M.
  rewrite Hc. reflexivity.
Qed.

Lemma SaveProject_exec_fault proj c p w e :
  db proj = Some c → compile env add w = None → exec_fault env add = Some e →
  SaveProject env proj p w = Exited 1 (emit (err_line "Failed to save project.") w).
Proof.
  intros Hdb Hc He. unfold SaveProject, db_Prepare, stmt_Exec, run_stmt.
  rewrite Hdb. run_M. rewrite Hc. cbn. rewrite He. reflexivity.
Qed.

(** *** UpdateProject *)

Lemma UpdateProject_ok proj c p w t :
  db proj = Some c → projects w = Some t →
  stmt_fault env update = None → exec_fault env update = None →
  UpdateProject env proj p w =
    Returned tt (set_projects
      (Some (set_row (Name p) (Command p) (Path p) (TearDown p) (ID p) <$> t)) w).
Proof.
  intros Hdb Ht Hs He.
  unfold UpdateProject, db_Prepare, stmt_Exec, stmt_Close, run_stmt, compile.
  rewrite Hdb. run_M. rewrite Hs, Ht, He. cbn. rewrite Ht. reflexivity.
Qed.

Lemma UpdateProject_unprepared proj c p w e :
  db proj = Some c → compile env update w = Some e →
  UpdateProject env proj p w = Exited 1 (emit (err_line "Failed to update project.") w).
Proof.
  intros Hdb Hc. unfold UpdateProject, db_Prepare. rewrite Hdb. run_M.
  rewrite Hc. reflexivity.
Qed.


(** *** The sidecar file *)

Lemma CreateProjectFile_ok proj p w data :
  yaml_Marshal env p = (data, None) →
  write_fault env (file_id env (cwd w) (Path p +:+ "/proj.yml")) = None →
  CreateProjectFile env proj p w =
    Returned tt (set_files
      (<[file_id env (cwd w) (Path p +:+ "/proj.yml") := data]> (files w)) w).
Proof.
  intros Hm Hw. unfold CreateProjectFile, ioutil_WriteFile. rewrite Hm. run_M.
  cbn. rewrite Hw. reflexivity.
Qed.

Lemma CreateProjectFile_marshal_error proj p w e data :
  yaml_Marshal env p = (data, Some e) →
  CreateProjectFile env proj p w = Panicked e w.
Proof. intros Hm. unfold CreateProjectFile. rewrite Hm. reflexivity. Qed.

Lemma CreateProjectFile_write_error proj p w e data :
  yaml_Marshal env p = (data, None) →
  write_fault env (file_id env (cwd w) (Path p +:+ "/proj.yml")) = Some e →
  CreateProjectFile env proj p w = Panicked e w.
Proof.
  intros Hm Hw. unfold CreateProjectFile, ioutil_WriteFile. rewrite Hm. run_M.
  cbn. rewrite Hw. reflexivity.
Qed.



Lemma CommitChanges_parsed proj w data p :
  files w !! file_id env (cwd w) "./proj.yml" = Some data →
  yaml_Unmarshal env data = (None, p) →
  CommitChanges env proj w = UpdateProject env proj p w.
Proof.
  intros Hf Hu. unfold CommitChanges, ioutil_ReadFile. run_M. rewrite Hf.
  cbn. rewrite Hu. reflexivity.
Qed.

(** *** The command runner *)

Lemma StartProject_loaded proj name w project :
  LoadProject env proj name w = Returned project w →
  StartProject env proj name w = run_loaded env (Command project) (Path project) w.
Proof.
  intros Hl. unfold StartProject. unfold mbind at 1, M_bind at 1. rewrite Hl.
  unfold run_loaded, printCommand, cmd_Run, color_Print, effective_dir. run_M. cbn.
  fold (sh_argv (Command project) (Path project)).
  destruct (run_proc env _ _) as [e|status o e]; [reflexivity|].
  by destruct (decide (status = 0)).
Qed.

Lemma StopProject_loaded proj name w project :
  LoadProject env proj name w = Returned project w →
  StopProject env proj name w = run_loaded env (TearDown project) (Path project) w.
Proof.
  intros Hl. unfold StopProject. unfold mbind at 1, M_bind at 1. rewrite Hl.
  unfold run_loaded, printCommand, cmd_Run, color_Print, effective_dir. run_M. cbn.
  fold (sh_argv (TearDown project) (Path project)).
  destruct (run_proc env _ _) as [e|status o e]; [reflexivity|].
  by destruct (decide (status = 0)).
Qed.

(** After the announcement: every subprocess recorded is the shell on the
    command and the path, in the caller's directory; there is exactly one,
    and first, when the shell starts, and none when it does not. *)
Lemma run_loaded_trace command path w :
  ∃ new,
    out (final (run_loaded env command path w)) =
      out (announced command path w) ++ new ∧
    (∀ argv dir, Spawned argv dir ∈ new →
       argv = sh_argv command path ∧ dir = cwd w) ∧
    (∀ status o e,
       run_proc env (sh_argv command path) (cwd w) = Finished status o e →
       ∃ rest, new = Spawned (sh_argv command path) (cwd w) :: rest ∧
               ∀ argv dir, Spawned argv dir ∉ rest) ∧
    (∀ e, run_proc env (sh_argv command path) (cwd w) = NotStarted e →
       ∀ argv dir, Spawned argv dir ∉ new).
Proof.
  assert (∀ rest,
            (∀ argv dir, Spawned argv dir ∉ rest) →
            ∀ argv dir,
              Spawned argv dir ∈ Spawned (sh_argv command path) (cwd w) :: rest →
              argv = sh_argv command path ∧ dir = cwd w) as Hhead.
  { intros rest Hrest argv dir [Heq|Hin]%elem_of_cons.
    - by injection Heq as -> ->.
    - by destruct (Hrest argv dir). }
  assert (∀ ev, (∀ argv dir, ev ≠ Spawned argv dir) →
                ∀ argv dir, Spawned argv dir ∉ [ev]) as Hone.
  { intros ev Hev argv dir Hin. apply list_elem_of_singleton in Hin.
    by apply (Hev argv dir). }
  assert (∀ argv dir, Spawned argv dir ∉ @nil event) as Hnil.
  { intros argv dir Hin. by apply elem_of_nil in Hin. }
  unfold run_loaded.
  destruct (run_proc env _ _) as [e|status o e].
  - exists [err_line e]. split_and!.
    + reflexivity.
    + intros argv dir Hin. by destruct (Hone (err_line e) ltac:(done) argv dir).
    + discriminate.
    + intros _ _. by apply Hone.
  - destruct (decide (status = 0)).
    + unfold printOutput, when. case_bool_decide.
      * eexists (_ :: [_]). split_and!.
        -- cbn. by rewrite <- app_assoc.
        -- apply Hhead. by apply Hone.
        -- intros ? ? ? _. eexists. split; [done|]. by apply Hone.
        -- discriminate.
      * exists [Spawned (sh_argv command path) (cwd w)]. split_and!.
        -- reflexivity.
        -- by apply Hhead.
        -- intros ? ? ? _. by eexists.
        -- discriminate.
    + eexists (_ :: [_]). split_and!.
      * cbn. by rewrite <- app_assoc.
      * apply Hhead. by apply Hone.
      * intros ? ? ? _. eexists. split; [done|]. by apply Hone.
      * discriminate.
Qed.

Lemma StartProject_not_loaded proj name w w' :
  LoadProject env proj name w = Exited 1 w' →
  StartProject env proj name w = Exited 1 w'.
Proof.
  intros Hl. unfold StartProject. unfold mbind at 1, M_bind at 1.
  by rewrite Hl.
Qed.

Lemma StopProject_not_loaded proj name w w' :
  LoadProject env proj name w = Exited 1 w' →
  StopProject env proj name w = Exited 1 w'.
Proof.
  intros Hl. unfold StopProject. unfold mbind at 1, M_bind at 1.
  by rewrite Hl.
Qed.

(** *** Opening the store *)

Lemma InitDB_fault filepath w e :
  open_fault env filepath = Some e →
  InitDB env filepath w = Exited 1 (emit (err_line "Could not create database.") w).
Proof. intros Ho. unfold InitDB, sql_Open. rewrite Ho. reflexivity. Qed.

Lemma InitDB_ok filepath w :
  open_fault env filepath = None →
  InitDB env filepath w = Returned (Some (Conn filepath)) w.
Proof. intros Ho. unfold InitDB, sql_Open. rewrite Ho. reflexivity. Qed.

Lemma CreateTable_fault c w :
  is_Some (stmt_fault env table) ∨ is_Some (exec_fault env table) →
  CreateTable env (Some c) w =
    Exited 1 (emit (err_line "Failed to create database table.") w).
Proof.
  unfold CreateTable, db_Exec, compile, run_stmt. run_M.
  intros [[e He]|[e He]].
  - rewrite He. reflexivity.
  - destruct (stmt_fault env table); [reflexivity|]. rewrite He. reflexivity.
Qed.

Lemma CreateTable_ok c w :
  stmt_fault env table = None → exec_fault env table = None →
  CreateTable env (Some c) w = Returned tt (with_table w).
Proof.
  intros Hs He. unfold CreateTable, db_Exec, compile, run_stmt. run_M.
  rewrite Hs, He. reflexivity.
Qed.

(** Past the two opening steps [main] is the chosen command on the world
    with the table in place. *)
Lemma main_ready args w :
  open_fault env DbPath = None →
  stmt_fault env table = None → exec_fault env table = None →
  main env args w =
    match args with
    | initProject name path command teardown =>
        InitProject env the_proj (mkProject "123" name path command teardown)
    | commit =>
        color_Print Green "Updating...";; CommitChanges env the_proj
    | start name =>
        color_Print Green ("Starting " +:+ name);; StartProject env the_proj name
    | stop name =>
        color_Print Blue ("Stopping: " +:+ name);; StopProject env the_proj name
    end (with_table w).
Proof.
  intros Ho Hs He. unfold main.
  unfold mbind at 1, M_bind at 1. rewrite (InitDB_ok _ _ Ho).
  unfold mbind at 1, M_bind at 1. rewrite (CreateTable_ok _ _ Hs He).
  reflexivity.
Qed.

End ProgramFacts.

(** ** What every run preserves *)

Section Invariant.

Variable env : Env.

Lemma keeps_ret {A} (a : A) : keeps (mret a) (λ x, x = a).
Proof. intros w Hw. split; [done|]. by intros a' w' [= <- _]. Qed.

Lemma keeps_bind {A B} (m : M A) (f : A → M B) (φ : A → Prop) (ψ : B → Prop) :
  keeps m φ → (∀ a, φ a → keeps (f a) ψ) → keeps (m ≫= f) ψ.
Proof.
  intros Hm Hf w Hw. destruct (Hm w Hw) as [Hi Hv].
  unfold mbind, M_bind. destruct (m w) as [a w1|code w1|v w1]; cbn in *.
  - apply (Hf a (Hv a w1 eq_refl) w1 Hi).
  - split; [done|]. discriminate.
  - split; [done|]. discriminate.
Qed.

Lemma keeps_weaken {A} (m : M A) (φ ψ : A → Prop) :
  keeps m φ → (∀ a, φ a → ψ a) → keeps m ψ.
Proof.
  intros Hm Hi w Hw. destruct (Hm w Hw) as [? Hv]. split; [done|].
  intros a w' Ha. apply Hi. by apply (Hv a w').
Qed.

(** A call that leaves the table alone keeps the invariant. *)
Lemma keeps_frame {A} (m : M A) :
  (∀ w, projects (final (m w)) = projects w) → keeps m (λ _, True).
Proof.
  intros Hm w Hw. split; [|done].
  unfold single_init_row in *. by rewrite Hm.
Qed.

Lemma keeps_seq {A B} (m : M A) (k : M B) (φ : A → Prop) (ψ : B → Prop) :
  keeps m φ → keeps k ψ → keeps (m ;; k) ψ.
Proof. intros Hm Hk. apply (keeps_bind m _ φ); [done|]. by intros _ _. Qed.

Lemma keeps_when (b : bool) (m : M unit) :
  keeps m (λ _, True) → keeps (when b m) (λ _, True).
Proof.
  intros Hm. destruct b; [done|]. apply (keeps_weaken _ _ _ (keeps_ret tt)). done.
Qed.

Lemma keeps_color_Print col text : keeps (color_Print col text) (λ _, True).
Proof. by apply keeps_frame. Qed.

Lemma keeps_cliError msg : keeps (cliError msg) (λ _, True).
Proof. by apply keeps_frame. Qed.

Lemma keeps_panic_on err : keeps (panic_on err) (λ _, True).
Proof. apply keeps_frame. by destruct err. Qed.

Lemma keeps_run_table args : keeps (run_stmt env table args) (λ _, True).
Proof.
  intros w Hw. split; [|done]. unfold run_stmt.
  destruct (exec_fault env table); [done|]. cbn.
  unfold single_init_row in *. cbn. destruct (projects w); [done|].
  cbn. split; [lia|constructor].
Qed.

Lemma keeps_run_add rest : keeps (run_stmt env add ("123" :: rest)) (λ _, True).
Proof.
  intros w Hw. split; [|done]. unfold run_stmt.
  destruct (exec_fault env add); [done|].
  unfold single_init_row in *. unfold apply_stmt.
  destruct (projects w) as [t|] eqn:Ht; [|by cbn; rewrite Ht].
  cbn. destruct Hw as [Hlen Hall].
  destruct rest as [|a2 [|a3 [|a4 [|a5 [|]]]]]; cbn; rewrite ?Ht; try done.
  rewrite (filter_all_same_id "123" t Hall). cbn.
  split; [lia|]. by repeat constructor.
Qed.

Lemma keeps_run_update args : keeps (run_stmt env update args) (λ _, True).
Proof.
  intros w Hw. split; [|done]. unfold run_stmt.
  destruct (exec_fault env update); [done|].
  unfold single_init_row in *. unfold apply_stmt.
  destruct (projects w) as [t|] eqn:Ht; [|by cbn; rewrite Ht].
  cbn. destruct Hw as [Hlen Hall].
  destruct args as [|a1 [|a2 [|a3 [|a4 [|a5 [|]]]]]]; cbn; rewrite ?Ht; try done.
  split; [by rewrite length_fmap|].
  apply Forall_fmap. eapply Forall_impl; [exact Hall|].
  intros r Hr. cbn. by rewrite set_row_id.
Qed.

Lemma keeps_db_Prepare d q :
  keeps (db_Prepare env d q) (λ r, r.1 = None ∨ r.1 = Some (Prepared q)).
Proof.
  intros w Hw. unfold db_Prepare. destruct d; [|done]. run_M.
  destruct (compile env q w); (split; [done|]); intros a w' [= <- _]; auto.
Qed.

Lemma keeps_stmt_Close stmt : keeps (stmt_Close stmt) (λ _, True).
Proof. apply keeps_frame. by destruct stmt. Qed.

Lemma keeps_InitDB filepath : keeps (InitDB env filepath) (λ _, True).
Proof.
  apply keeps_frame. intros w. unfold InitDB, sql_Open.
  by destruct (open_fault env filepath).
Qed.

Lemma keeps_CreateTable d : keeps (CreateTable env d) (λ _, True).
Proof.
  unfold CreateTable, db_Exec. destruct d as [c|]; [|by apply keeps_frame].
  eapply keeps_bind with (φ := λ _, True).
  - intros w Hw. run_M. destruct (compile env table w); [done|].
    by apply keeps_run_table.
  - intros err _. apply keeps_when, keeps_cliError.
Qed.

Lemma keeps_SaveProject proj p :
  ID p = "123" → keeps (SaveProject env proj p) (λ _, True).
Proof.
  intros Hid. unfold SaveProject.
  eapply keeps_bind; [apply keeps_db_Prepare|].
  intros [stmt err] Hstmt. cbn in Hstmt.
  eapply keeps_bind with (φ := λ _, True).
  - rewrite Hid. destruct Hstmt as [-> | ->]; [by apply keeps_frame|].
    apply keeps_run_add.
  - intros e _. eapply keeps_seq; [apply keeps_when, keeps_cliError|].
    apply keeps_stmt_Close.
Qed.

Lemma keeps_UpdateProject proj p : keeps (UpdateProject env proj p) (λ _, True).
Proof.
  unfold UpdateProject.
  eapply keeps_bind; [apply keeps_db_Prepare|].
  intros [stmt err] Hstmt. cbn in Hstmt.
  eapply keeps_seq; [apply keeps_when, keeps_cliError|].
  eapply keeps_bind with (φ := λ _, True).
  - destruct Hstmt as [-> | ->]; [by apply keeps_frame|].
    apply keeps_run_update.
  - intros e _. eapply keeps_seq; [apply keeps_when, keeps_cliError|].
    apply keeps_stmt_Close.
Qed.

Lemma keeps_CreateProjectFile proj p : keeps (CreateProjectFile env proj p) (λ _, True).
Proof.
  apply keeps_frame. intros w. unfold CreateProjectFile, ioutil_WriteFile.
  destruct (yaml_Marshal env p) as [data [e|]]; [done|]. run_M. cbn.
  by destruct (write_fault env _).
Qed.

Lemma keeps_CommitChanges proj : keeps (CommitChanges env proj) (λ _, True).
Proof.
  unfold CommitChanges.
  eapply keeps_bind with (φ := λ _, True).
  - apply keeps_frame. intros w. unfold ioutil_ReadFile.
    by destruct (files w !! _).
  - intros [data err] _. eapply keeps_seq; [apply keeps_panic_on|].
    destruct (yaml_Unmarshal env data) as [err' p].
    eapply keeps_seq; [apply keeps_panic_on|]. apply keeps_UpdateProject.
Qed.

Lemma keeps_run_loaded command path : keeps (run_loaded env command path) (λ _, True).
Proof.
  apply keeps_frame. intros w. unfold run_loaded.
  destruct (run_proc env _ _) as [e|status o e]; [done|].
  destruct (decide (status = 0)); [|done].
  unfold printOutput, when. by case_bool_decide.
Qed.

Lemma keeps_StartProject proj name : keeps (StartProject env proj name) (λ _, True).
Proof.
  intros w Hw. split; [|done].
  destruct proj as [[c|]]; [|done].
  destruct (LoadProject_cases env (mkProj (Some c)) c name w eq_refl)
    as [(t & r & _ & _ & _ & Hl)|Hl].
  - rewrite (StartProject_loaded env _ name w _ Hl).
    by apply keeps_run_loaded.
  - by rewrite (StartProject_not_loaded env _ name w _ Hl).
Qed.

Lemma keeps_StopProject proj name : keeps (StopProject env proj name) (λ _, True).
Proof.
  intros w Hw. split; [|done].
  destruct proj as [[c|]]; [|done].
  destruct (LoadProject_cases env (mkProj (Some c)) c name w eq_refl)
    as [(t & r & _ & _ & _ & Hl)|Hl].
  - rewrite (StopProject_loaded env _ name w _ Hl).
    by apply keeps_run_loaded.
  - by rewrite (StopProject_not_loaded env _ name w _ Hl).
Qed.

Lemma keeps_main args : keeps (main env args) (λ _, True).
Proof.
  unfold main.
  eapply keeps_bind; [apply keeps_InitDB|]. intros d _.
  eapply keeps_seq; [apply keeps_CreateTable|].
  destruct args as [name path command teardown| |name|name].
  - unfold InitProject.
    eapply keeps_seq; [apply keeps_CreateProjectFile|].
    by apply keeps_SaveProject.
  - eapply keeps_seq; [apply keeps_color_Print|]. apply keeps_CommitChanges.
  - eapply keeps_seq; [apply keeps_color_Print|]. apply keeps_StartProject.
  - eapply keeps_seq; [apply keeps_color_Print|]. apply keeps_StopProject.
Qed.

End Invariant.

Lemma step_single_init_row w w' :
  step w w' → single_init_row w → single_init_row w'.
Proof.
  intros [env args w0|w0 f d c Hc] Hw.
  - by apply (keeps_main env args w0).
  - exact Hw.
Qed.

Lemma reachable_single_init_row w : reachable w → single_init_row w.
Proof.
  intros (w0 & H0 & Hsteps).
  assert (single_init_row w0) as Hw0 by (unfold single_init_row; by rewrite H0).
  clear H0. induction Hsteps as [|w1 w2 w3 Hstep _ IH]; [done|].
  apply IH. by apply (step_single_init_row w1).
Qed.

(** ** A run of [init] that returns *)

Section InitFacts.

Variable env : Env.

Lemma compile_ok q w :
  q ≠ table → compile env q w = None →
  stmt_fault env q = None ∧ ∃ t, projects w = Some t.
Proof.
  unfold compile. intros Hq.
  destruct (stmt_fault env q); [done|].
  destruct q, (projects w) as [t|]; try done; eauto.
Qed.

Lemma main_returned args w w1 :
  main env args w = Returned tt w1 →
  open_fault env DbPath = None ∧
  stmt_fault env table = None ∧ exec_fault env table = None.
Proof.
  unfold main. unfold mbind at 1, M_bind at 1.
  destruct (open_fault env DbPath) as [e|] eqn:Ho.
  { by rewrite (InitDB_fault env _ _ e Ho). }
  rewrite (InitDB_ok env _ _ Ho).
  unfold mbind at 1, M_bind at 1.
  destruct (stmt_fault env table) as [e|] eqn:Hs.
  { rewrite CreateTable_fault; [done|]. left. by rewrite Hs. }
  destruct (exec_fault env table) as [e|] eqn:He.
  { rewrite CreateTable_fault; [done|]. right. by rewrite He. }
  done.
Qed.

Lemma InitProject_returned proj c p w w1 :
  db proj = Some c →
  InitProject env proj p w = Returned tt w1 →
  ∃ t, projects w = Some t ∧
       projects w1 = Some (filter (λ r, cId r ≠ ID p) t ++ [row_of (clock w) p]).
Proof.
  intros Hdb. unfold InitProject. unfold mbind at 1, M_bind at 1.
  destruct (yaml_Marshal env p) as [data [e|]] eqn:Hm.
  { by rewrite (CreateProjectFile_marshal_error env proj p w e data Hm). }
  destruct (write_fault env (file_id env (cwd w) (Path p +:+ "/proj.yml")))
    as [e|] eqn:Hw.
  { by rewrite (CreateProjectFile_write_error env proj p w e data Hm Hw). }
  rewrite (CreateProjectFile_ok env proj p w data Hm Hw).
  set (w' := set_files _ w).
  destruct (compile env add w') as [e|] eqn:Hc.
  { by rewrite (SaveProject_unprepared env proj c p w' e Hdb Hc). }
  destruct (exec_fault env add) as [e|] eqn:He.
  { by rewrite (SaveProject_exec_fault env proj c p w' e Hdb Hc He). }
  destruct (compile_ok add w') as (Hs & t & Ht); [done|done|].
  rewrite (SaveProject_ok env proj c p w' t Hdb Ht Hs He).
  intros [= <-]. exists t. done.
Qed.

(** On a table that holds at most the row of an earlier [init], an [init]
    that returns leaves its own row and no other. *)
Lemma init_leaves_one_row name path command teardown w w1 :
  single_init_row w →
  main env (initProject name path command teardown) w = Returned tt w1 →
  projects w1 = Some [mkRow "123" name path command teardown (clock w)].
Proof.
  intros Hinv Hrun.
  destruct (main_returned _ _ _ Hrun) as (Ho & Hs & He).
  rewrite (main_ready env _ w Ho Hs He) in Hrun.
  destruct (InitProject_returned the_proj (Conn DbPath) _ _ _ eq_refl Hrun)
    as (t & Ht & ->).
  assert (Forall (λ r, cId r = "123") t) as Hall.
  { unfold single_init_row in Hinv. cbn in Ht.
    destruct (projects w) as [t0|]; cbn in Ht; injection Ht as <-.
    - by destruct Hinv.
    - constructor. }
  cbn [ID]. by rewrite (filter_all_same_id "123" t Hall).
Qed.

End InitFacts.

(** ** How a run can exit *)

Section Clean.

Variable env : Env.
























End Clean.

(** ** Properties every call preserves *)

Section Preserved.

Variable env : Env.
Variable P : World → Prop.
Hypothesis P_out : out_stable P.

Lemma preserves_ret {A} (a : A) : preserves P (mret a) (λ x, x = a).
Proof. intros w Hw. split; [done|]. by intros a' w' [= <- _]. Qed.

Lemma preserves_bind {A B} (m : M A) (f : A → M B) (φ : A → Prop) (ψ : B → Prop) :
  preserves P m φ → (∀ a, φ a → preserves P (f a) ψ) → preserves P (m ≫= f) ψ.
Proof.
  intros Hm Hf w Hw. destruct (Hm w Hw) as [Hi Hv].
  unfold mbind, M_bind. destruct (m w) as [a w1|code w1|v w1]; cbn in *.
  - apply (Hf a (Hv a w1 eq_refl) w1 Hi).
  - split; [done|]. discriminate.
  - split; [done|]. discriminate.
Qed.

Lemma preserves_seq {A B} (m : M A) (k : M B) (φ : A → Prop) (ψ : B → Prop) :
  preserves P m φ → preserves P k ψ → preserves P (m ;; k) ψ.
Proof. intros Hm Hk. apply (preserves_bind m _ φ); [done|]. by intros _ _. Qed.

Lemma preserves_any {A} (m : M A) (φ : A → Prop) :
  preserves P m φ → preserves P m (λ _, True).
Proof. intros Hm w Hw. destruct (Hm w Hw). done. Qed.

(** A call that can only add to the trace. *)
Lemma preserves_prints {A} (m : M A) :
  (∀ w, final (m w) = w ∨ ∃ e, final (m w) = emit e w) →
  preserves P m (λ _, True).
Proof.
  intros Hm w Hw. split; [|done].
  destruct (Hm w) as [-> | [e ->]]; [done|]. by apply P_out.
Qed.

Lemma preserves_when (b : bool) (m : M unit) :
  preserves P m (λ _, True) → preserves P (when b m) (λ _, True).
Proof. intros Hm. destruct b; [done|]. by apply preserves_prints; left. Qed.

Lemma preserves_color_Print col text : preserves P (color_Print col text) (λ _, True).
Proof. apply preserves_prints. intros w. right. by eexists. Qed.

Lemma preserves_cliError msg : preserves P (cliError msg) (λ _, True).
Proof. apply preserves_prints. intros w. right. by eexists. Qed.

Lemma preserves_panic_on err : preserves P (panic_on err) (λ _, True).
Proof. apply preserves_prints. intros w. left. by destruct err. Qed.

Lemma preserves_run_stmt q args :
  stmt_stable P q → preserves P (run_stmt env q args) (λ _, True).
Proof.
  intros Hq w Hw. split; [|done]. unfold run_stmt.
  destruct (exec_fault env q); [done|].
  destruct (apply_stmt _ _ _ _) as [d|] eqn:Hd; [|done].
  by apply (Hq w args d).
Qed.

Lemma preserves_db_Prepare d q :
  preserves P (db_Prepare env d q) (λ r, r.1 = None ∨ r.1 = Some (Prepared q)).
Proof.
  intros w Hw. unfold db_Prepare. destruct d; [|done]. run_M.
  destruct (compile env q w); (split; [done|]); intros a w' [= <- _]; auto.
Qed.

Lemma preserves_stmt_Exec stmt q args :
  stmt = None ∨ stmt = Some (Prepared q) → stmt_stable P q →
  preserves P (stmt_Exec env stmt args) (λ _, True).
Proof.
  intros [-> | ->] Hq; [by apply preserves_prints; left|].
  by apply preserves_run_stmt.
Qed.

Lemma preserves_stmt_Close stmt : preserves P (stmt_Close stmt) (λ _, True).
Proof. apply preserves_prints. intros w. left. by destruct stmt. Qed.

Lemma preserves_InitDB filepath : preserves P (InitDB env filepath) (λ _, True).
Proof.
  apply preserves_prints. intros w. unfold InitDB, sql_Open.
  destruct (open_fault env filepath); [right; by eexists|by left].
Qed.

Lemma preserves_CreateTable d :
  stmt_stable P table → preserves P (CreateTable env d) (λ _, True).
Proof.
  intros Ht. unfold CreateTable, db_Exec.
  destruct d as [c|]; [|by apply preserves_prints; left].
  eapply preserves_bind with (φ := λ _, True).
  - intros w Hw. run_M. destruct (compile env table w); [done|].
    by apply preserves_run_stmt.
  - intros err _. apply preserves_when, preserves_cliError.
Qed.

Lemma preserves_SaveProject proj p :
  stmt_stable P add → preserves P (SaveProject env proj p) (λ _, True).
Proof.
  intros Ha. unfold SaveProject.
  eapply preserves_bind; [apply preserves_db_Prepare|].
  intros [stmt err] Hstmt. cbn in Hstmt.
  eapply preserves_bind; [by apply (preserves_stmt_Exec stmt add)|].
  intros e _. eapply preserves_seq; [apply preserves_when, preserves_cliError|].
  apply preserves_stmt_Close.
Qed.

Lemma preserves_UpdateProject proj p :
  stmt_stable P update → preserves P (UpdateProject env proj p) (λ _, True).
Proof.
  intros Hu. unfold UpdateProject.
  eapply preserves_bind; [apply preserves_db_Prepare|].
  intros [stmt err] Hstmt. cbn in Hstmt.
  eapply preserves_seq; [apply preserves_when, preserves_cliError|].
  eapply preserves_bind; [by apply (preserves_stmt_Exec stmt update)|].
  intros e _. eapply preserves_seq; [apply preserves_when, preserves_cliError|].
  apply preserves_stmt_Close.
Qed.

Lemma preserves_LoadProject proj name :
  preserves P (LoadProject env proj name) (λ _, True).
Proof.
  apply preserves_prints. intros w.
  destruct proj as [[c|]]; [|by left].
  destruct (LoadProject_cases env (mkProj (Some c)) c name w eq_refl)
    as [(t & r & _ & _ & _ & ->)| ->]; [by left|right; by eexists].
Qed.

Lemma preserves_CreateProjectFile proj p :
  write_stable P → preserves P (CreateProjectFile env proj p) (λ _, True).
Proof.
  intros Hwr w Hw. split; [|done]. unfold CreateProjectFile, ioutil_WriteFile.
  destruct (yaml_Marshal env p) as [data [e|]]; [done|]. run_M. cbn.
  destruct (write_fault env _); [done|]. cbn. by apply Hwr.
Qed.

Lemma preserves_CommitChanges proj :
  stmt_stable P update → preserves P (CommitChanges env proj) (λ _, True).
Proof.
  intros Hu. unfold CommitChanges.
  eapply preserves_bind with (φ := λ _, True).
  - apply preserves_prints. intros w. left. unfold ioutil_ReadFile.
    by destruct (files w !! _).
  - intros [data err] _. eapply preserves_seq; [apply preserves_panic_on|].
    destruct (yaml_Unmarshal env data) as [err' p].
    eapply preserves_seq; [apply preserves_panic_on|].
    by apply preserves_UpdateProject.
Qed.

Lemma preserves_run_loaded command path :
  preserves P (run_loaded env command path) (λ _, True).
Proof.
  intros w Hw. split; [|done]. unfold run_loaded.
  assert (P (spawned command path w)) as Hsp by by do 2 apply P_out.
  destruct (run_proc env _ _) as [e|status o e]; [by do 2 apply P_out|].
  destruct (decide (status = 0)); [|by apply P_out].
  unfold printOutput, when. case_bool_decide; [by apply P_out|done].
Qed.

Lemma preserves_StartProject proj name :
  preserves P (StartProject env proj name) (λ _, True).
Proof.
  intros w Hw. split; [|done].
  destruct proj as [[c|]]; [|done].
  destruct (LoadProject_cases env (mkProj (Some c)) c name w eq_refl)
    as [(t & r & _ & _ & _ & Hl)|Hl].
  - rewrite (StartProject_loaded env _ name w _ Hl).
    by apply preserves_run_loaded.
  - rewrite (StartProject_not_loaded env _ name w _ Hl). by apply P_out.
Qed.

Lemma preserves_StopProject proj name :
  preserves P (StopProject env proj name) (λ _, True).
Proof.
  intros w Hw. split; [|done].
  destruct proj as [[c|]]; [|done].
  destruct (LoadProject_cases env (mkProj (Some c)) c name w eq_refl)
    as [(t & r & _ & _ & _ & Hl)|Hl].
  - rewrite (StopProject_loaded env _ name w _ Hl).
    by apply preserves_run_loaded.
  - rewrite (StopProject_not_loaded env _ name w _ Hl). by apply P_out.
Qed.

Lemma preserves_main args :
  stmt_stable P table → command_stable P args →
  preserves P (main env args) (λ _, True).
Proof.
  intros Ht Hc. unfold main.
  eapply preserves_bind; [apply preserves_InitDB|]. intros d _.
  eapply preserves_seq; [by apply preserves_CreateTable|].
  destruct args as [name path command teardown| |name|name]; cbn in Hc.
  - destruct Hc as [Hwr Ha]. unfold InitProject.
    eapply preserves_seq; [by apply preserves_CreateProjectFile|].
    by apply preserves_SaveProject.
  - eapply preserves_seq; [apply preserves_color_Print|].
    by apply preserves_CommitChanges.
  - eapply preserves_seq; [apply preserves_color_Print|].
    apply preserves_StartProject.
  - eapply preserves_seq; [apply preserves_color_Print|].
    apply preserves_StopProject.
Qed.

End Preserved.

(** ** When a run returns *)

Section Returns.

Variable env : Env.


Lemma compile_with_table q ev w :
  compile env q (emit ev (with_table w)) = stmt_fault env q.
Proof. unfold compile. cbn. destruct (stmt_fault env q); [done|]. by destruct q. Qed.







End Returns.

(** ** The store operations *)

(** C2: [SaveProject] on a table that already holds the record's id
    returns without a message and leaves the new row as the only one of
    that id, every other row kept and no row added; on a table that holds
    the record's name under another id it keeps that row, so two rows share
    the name, and with an id not yet in the table the new row is appended. *)
Theorem SaveProject_upsert env proj c p w t :
  db proj = Some c → projects w = Some t → primary_key t →
  stmt_fault env add = None → exec_fault env add = None →
  ∃ t',
    SaveProject env proj p w = Returned tt (set_projects (Some t') w) ∧
    primary_key t' ∧
    row_of (clock w) p ∈ t' ∧
    (∀ r, r ∈ t' → cId r = ID p → r = row_of (clock w) p) ∧
    (∀ r, cId r ≠ ID p → r ∈ t' ↔ r ∈ t) ∧
    (ID p ∈ cId <$> t → length t' = length t) ∧
    (ID p ∉ cId <$> t → t' = t ++ [row_of (clock w) p]) ∧
    (∀ r, r ∈ t → cName r = Name p → cId r ≠ ID p →
       r ∈ t' ∧ r ≠ row_of (clock w) p ∧ cName (row_of (clock w) p) = cName r).
Proof.
  intros Hdb Ht Hpk Hs He.
  exists (filter (λ r, cId r ≠ ID p) t ++ [row_of (clock w) p]).
  split_and!.
  - by apply (SaveProject_ok env proj c).
  - by apply add_primary_key.
  - apply elem_of_app. right. by apply list_elem_of_singleton.
  - intros r [Hin|Hin]%elem_of_app Hid.
    + by apply list_elem_of_filter in Hin as [Hne _].
    + by apply list_elem_of_singleton in Hin.
  - intros r Hne. rewrite elem_of_app, list_elem_of_filter, list_elem_of_singleton.
    split; [|by left]. intros [[_ ?]| ->]; [done|]. by destruct Hne.
  - intros Hin. rewrite length_app. cbn.
    rewrite <- (filter_other_id_length (ID p) t Hpk Hin). lia.
  - intros Hnin. rewrite filter_other_id_fresh; [done|].
    apply Forall_forall. intros r Hr Heq. apply Hnin.
    rewrite <- Heq. by apply list_elem_of_fmap_2.
  - intros r Hin Hn Hne. split_and!.
    + apply elem_of_app. left. by apply list_elem_of_filter.
    + intros ->. by destruct Hne.
    + done.
Qed.

Lemma SaveProject_upsert_witness :
  ∃ t',
    SaveProject demo_env the_proj
      (mkProject "456" "a" "/srv/other" "run" "halt") world_a
      = Returned tt (set_projects (Some t') world_a) ∧
    t' = [mkRow "123" "a" "/home/dev/a" "make up" "make down" 100;
          mkRow "456" "a" "/srv/other" "run" "halt" 100].
Proof.
  destruct (SaveProject_upsert demo_env the_proj (Conn DbPath)
              (mkProject "456" "a" "/srv/other" "run" "halt") world_a
              [mkRow "123" "a" "/home/dev/a" "make up" "make down" 100])
    as (t' & Hrun & _ & _ & _ & _ & _ & Hfresh & _).
  - reflexivity.
  - reflexivity.
  - apply NoDup_singleton.
  - reflexivity.
  - reflexivity.
  - exists t'. split; [exact Hrun|].
    apply Hfresh. cbn. intros Hin.
    apply list_elem_of_singleton in Hin. discriminate Hin.
Defined.

(** C3: looking up a name that no row of the table carries ends the
    process through [cliError] (red line, exit code 1) and never returns a
    record; [StartProject] and [StopProject] end the same way before any
    subprocess is started. *)
Theorem LoadProject_not_found env proj c name w :
  db proj = Some c →
  (∀ t, projects w = Some t → Forall (λ r, cName r ≠ name) t) →
  LoadProject env proj name w
    = Exited 1 (emit (err_line "Failed to load project.") w) ∧
  (∀ project w', LoadProject env proj name w ≠ Returned project w') ∧
  StartProject env proj name w
    = Exited 1 (emit (err_line "Failed to load project.") w) ∧
  StopProject env proj name w
    = Exited 1 (emit (err_line "Failed to load project.") w).
Proof.
  intros Hdb Habs.
  pose proof (LoadProject_absent env proj c name w Hdb Habs) as Hl.
  split_and!.
  - exact Hl.
  - intros project w'. rewrite Hl. discriminate.
  - by apply StartProject_not_loaded.
  - by apply StopProject_not_loaded.
Qed.

Lemma LoadProject_not_found_witness :
  LoadProject demo_env the_proj "ghost" world_a
    = Exited 1 (emit (err_line "Failed to load project.") world_a).
Proof.
  apply (LoadProject_not_found demo_env the_proj (Conn DbPath) "ghost" world_a).
  - reflexivity.
  - intros t [= <-]. repeat constructor. discriminate.
Defined.

(** C10: when preparing the insert fails, [SaveProject] goes on with the
    nil statement and the process ends in a nil-dereference panic, not in
    [cliError]; the same failure in [UpdateProject], where the error is
    checked, ends in [cliError]. *)
Theorem SaveProject_nil_statement env proj c p w e :
  db proj = Some c → compile env add w = Some e →
  SaveProject env proj p w = Panicked nil_deref w ∧
  (∀ code w', SaveProject env proj p w ≠ Exited code w') ∧
  (∀ e', compile env update w = Some e' →
     UpdateProject env proj p w
       = Exited 1 (emit (err_line "Failed to update project.") w)).
Proof.
  intros Hdb Hc.
  pose proof (SaveProject_unprepared env proj c p w e Hdb Hc) as Hs.
  split_and!.
  - exact Hs.
  - intros code w'. rewrite Hs. discriminate.
  - intros e' Hu. by apply (UpdateProject_unprepared env proj c p w e').
Qed.

Lemma SaveProject_nil_statement_witness :
  SaveProject demo_env the_proj (mkProject "123" "a" "/home/dev/a" "make up" "") fresh
    = Panicked nil_deref fresh.
Proof.
  apply (SaveProject_nil_statement demo_env the_proj (Conn DbPath) _ fresh no_such_table);
    reflexivity.
Defined.

(** ** The command runner *)

(** C9: for a record that the lookup returns, [StartProject] and
    [StopProject] build [sh -c] with the command (or the tear-down) as the
    command string and the record's path as the next argument, the shell's
    [$0], and set no [Dir].  Every subprocess the call starts is that shell
    and runs in the caller's working directory [cwd w], never in the
    record's path; when the shell starts there is exactly one, right after
    the announcement, and when it cannot be started there is none. *)
Theorem commands_run_in_cwd env proj name w project :
  LoadProject env proj name w = Returned project w →
  Dir (with_Stdout (Some Buffer)
         (exec_Command "sh" ["-c"; Command project; Path project])) = "" ∧
  Dir (with_Stdout (Some Buffer)
         (exec_Command "sh" ["-c"; TearDown project; Path project])) = "" ∧
  (∃ new,
     out (final (StartProject env proj name w)) =
       out (announced (Command project) (Path project) w) ++ new ∧
     (∀ argv dir, Spawned argv dir ∈ new →
        argv = ["sh"; "-c"; Command project; Path project] ∧ dir = cwd w) ∧
     (∀ status o e,
        run_proc env ["sh"; "-c"; Command project; Path project] (cwd w)
          = Finished status o e →
        ∃ rest,
          new = Spawned ["sh"; "-c"; Command project; Path project] (cwd w) :: rest ∧
          ∀ argv dir, Spawned argv dir ∉ rest) ∧
     (∀ e,
        run_proc env ["sh"; "-c"; Command project; Path project] (cwd w)
          = NotStarted e →
        ∀ argv dir, Spawned argv dir ∉ new)) ∧
  (∃ new,
     out (final (StopProject env proj name w)) =
       out (announced (TearDown project) (Path project) w) ++ new ∧
     (∀ argv dir, Spawned argv dir ∈ new →
        argv = ["sh"; "-c"; TearDown project; Path project] ∧ dir = cwd w) ∧
     (∀ status o e,
        run_proc env ["sh"; "-c"; TearDown project; Path project] (cwd w)
          = Finished status o e →
        ∃ rest,
          new = Spawned ["sh"; "-c"; TearDown project; Path project] (cwd w) :: rest ∧
          ∀ argv dir, Spawned argv dir ∉ rest) ∧
     (∀ e,
        run_proc env ["sh"; "-c"; TearDown project; Path project] (cwd w)
          = NotStarted e →
        ∀ argv dir, Spawned argv dir ∉ new)).
Proof.
  intros Hl. split_and!; [reflexivity|reflexivity| |].
  - rewrite (StartProject_loaded env proj name w project Hl).
    apply run_loaded_trace.
  - rewrite (StopProject_loaded env proj name w project Hl).
    apply run_loaded_trace.
Qed.

Lemma commands_run_in_cwd_witness :
  ∃ new,
    out (final (StartProject demo_env the_proj "a" world_a)) =
      out (announced "make up" "/home/dev/a" world_a) ++ new ∧
    (∀ argv dir, Spawned argv dir ∈ new →
       argv = ["sh"; "-c"; "make up"; "/home/dev/a"] ∧ dir = "/home/dev/a") ∧
    ∃ rest,
      new = Spawned ["sh"; "-c"; "make up"; "/home/dev/a"] "/home/dev/a" :: rest ∧
      ∀ argv dir, Spawned argv dir ∉ rest.
Proof.
  destruct (commands_run_in_cwd demo_env the_proj "a" world_a
              (mkProject "123" "a" "/home/dev/a" "make up" "make down"))
    as (_ & _ & (new & Hout & Hall & Hstarted & _) & _); [reflexivity|].
  exists new. split_and!; [exact Hout|exact Hall|].
  apply (Hstarted 0 "started" ""). reflexivity.
Defined.

(** C5, as the code has it: when the command of a loaded record ends with
    a non-zero status [N], [StartProject] (and [StopProject] for the
    tear-down command) ends the process through [cliError] with exit code 1,
    and the line printed is [==> Error: exit status N]: it is made of the
    status alone, whatever the command wrote, and the captured output is not
    printed. *)
Theorem nonzero_exit_is_fatal env proj name w project :
  LoadProject env proj name w = Returned project w →
  (∀ status o e,
     run_proc env (sh_argv (Command project) (Path project)) (cwd w)
       = Finished status o e →
     status ≠ 0 →
     StartProject env proj name w =
       Exited 1 (emit (err_line (exit_error status))
                      (spawned (Command project) (Path project) w))) ∧
  (∀ status o e,
     run_proc env (sh_argv (TearDown project) (Path project)) (cwd w)
       = Finished status o e →
     status ≠ 0 →
     StopProject env proj name w =
       Exited 1 (emit (err_line (exit_error status))
                      (spawned (TearDown project) (Path project) w))).
Proof.
  intros Hl. split; intros status o e Hrun Hne.
  - rewrite (StartProject_loaded env proj name w project Hl).
    unfold run_loaded. rewrite Hrun. by rewrite decide_False.
  - rewrite (StopProject_loaded env proj name w project Hl).
    unfold run_loaded. rewrite Hrun. by rewrite decide_False.
Qed.

Lemma nonzero_exit_is_fatal_witness :
  StartProject demo_env the_proj "z" world_z =
    Exited 1 (emit (err_line "exit status 3") (spawned "zzz" "/home/dev/a" world_z)).
Proof.
  refine (proj1 (nonzero_exit_is_fatal demo_env the_proj "z" world_z
                   (mkProject "123" "z" "/home/dev/a" "zzz" "yyy") _)
            3 "boom" "sh: not found" _ _).
  - reflexivity.
  - reflexivity.
  - discriminate.
Defined.

(** C5, counterexample: the command of project [z] ends with status 3
    having written [boom] and [sh: not found]; [start z] ends with exit code
    1 and nothing it printed contains either text. *)
Lemma fatal_message_omits_output :
  run_proc demo_env (sh_argv "zzz" "/home/dev/a") "/home/dev/a"
    = Finished 3 "boom" "sh: not found" ∧
  exit_status (main demo_env (start "z") world_z) = 1 ∧
  out (final (main demo_env (start "z") world_z)) =
    [Colored Green "Starting z";
     Colored Magenta ("==> Executing: sh -c zzz /home/dev/a" +:+ nl);
     Spawned ["sh"; "-c"; "zzz"; "/home/dev/a"] "/home/dev/a";
     Colored Red ("==> Error: exit status 3" +:+ nl)] ∧
  contains "boom" ("==> Error: exit status 3" +:+ nl) = false ∧
  contains "sh: not found" ("==> Error: exit status 3" +:+ nl) = false.
Proof. split_and!; reflexivity. Qed.

(** ** Commit and save *)

(** C1, as the code has it: for the record parsed from the sidecar file,
    [commit] rewrites the rows whose [Id] is the record's id (one at most
    under the primary key): such a row takes the record's [Name], [Path],
    [Command] and [TearDown] and keeps its [Id] and [CreatedAt]; every other
    row, and the order and number of rows, is unchanged. *)
Theorem commit_updates_row_by_id env proj c w data p t :
  db proj = Some c → projects w = Some t →
  files w !! file_id env (cwd w) "./proj.yml" = Some data →
  yaml_Unmarshal env data = (None, p) →
  stmt_fault env update = None → exec_fault env update = None →
  ∃ t',
    CommitChanges env proj w = Returned tt (set_projects (Some t') w) ∧
    length t' = length t ∧
    cId <$> t' = cId <$> t ∧
    ∀ (i : nat) r, t !! i = Some r →
      t' !! i = Some (if decide (cId r = ID p)
                      then mkRow (cId r) (Name p) (Path p) (Command p) (TearDown p)
                                 (cCreatedAt r)
                      else r).
Proof.
  intros Hdb Ht Hf Hu Hs He.
  exists (set_row (Name p) (Command p) (Path p) (TearDown p) (ID p) <$> t).
  split_and!.
  - rewrite (CommitChanges_parsed env proj w data p Hf Hu).
    by apply (UpdateProject_ok env proj c).
  - apply length_fmap.
  - apply update_ids.
  - intros i r Hi. rewrite list_lookup_fmap, Hi. reflexivity.
Qed.

Lemma commit_updates_row_by_id_witness :
  ∃ t',
    CommitChanges demo_env the_proj world_a_edited
      = Returned tt (set_projects (Some t') world_a_edited) ∧
    t' !! 0%nat = Some (mkRow "123" "b" "/srv/b" "run" "halt" 100).
Proof.
  destruct (commit_updates_row_by_id demo_env the_proj (Conn DbPath) world_a_edited
              (strings_Join ["123"; "b"; "/srv/b"; "run"; "halt"] nl)
              (mkProject "123" "b" "/srv/b" "run" "halt")
              [mkRow "123" "a" "/home/dev/a" "make up" "make down" 100])
    as (t' & Hrun & _ & _ & Hrow); try reflexivity.
  exists t'. split; [exact Hrun|].
  apply (Hrow 0%nat (mkRow "123" "a" "/home/dev/a" "make up" "make down" 100)).
  reflexivity.
Defined.

(** C1, counterexample: the table holds project [a] under id 123 and the
    sidecar file now names the same id [b].  No row carries the record's
    name, so matching by name changes nothing; [commit] rewrites the row
    named [a], name included. *)
Lemma commit_rewrites_row_of_other_name :
  yaml_Unmarshal demo_env
      (strings_Join ["123"; "b"; "/srv/b"; "run"; "halt"] nl)
    = (None, mkProject "123" "b" "/srv/b" "run" "halt") ∧
  projects world_a_edited
    = Some [mkRow "123" "a" "/home/dev/a" "make up" "make down" 100] ∧
  spec_update_by_name (mkProject "123" "b" "/srv/b" "run" "halt")
      [mkRow "123" "a" "/home/dev/a" "make up" "make down" 100]
    = [mkRow "123" "a" "/home/dev/a" "make up" "make down" 100] ∧
  main demo_env commit world_a_edited
    = Returned tt
        (emit (Colored Green "Updating...")
           (set_projects (Some [mkRow "123" "b" "/srv/b" "run" "halt" 100])
              world_a_edited)).
Proof. split_and!; reflexivity. Qed.

(** C6, as the code has it: saving the same record a second time, [dt]
    later, leaves the same rows in the same order except that the saved row
    carries the clock reading of the second save in [CreatedAt]; the records
    held are the same, and so is the whole table when the clock has not
    moved. *)
Theorem SaveProject_twice env proj c p w t dt :
  db proj = Some c → projects w = Some t →
  stmt_fault env add = None → exec_fault env add = None →
  let kept := filter (λ r, cId r ≠ ID p) t in
  let once := SaveProject env proj p w in
  let twice := SaveProject env proj p (tick dt (final once)) in
  projects (final once) = Some (kept ++ [row_of (clock w) p]) ∧
  returns twice = true ∧
  projects (final twice) = Some (kept ++ [row_of (clock w + dt) p]) ∧
  (record_of <$> kept ++ [row_of (clock w + dt) p])
    = (record_of <$> kept ++ [row_of (clock w) p]) ∧
  (dt = 0 → projects (final twice) = projects (final once)).
Proof.
  intros Hdb Ht Hs He kept once twice.
  assert (once = Returned tt (set_projects (Some (kept ++ [row_of (clock w) p])) w))
    as Honce by by apply (SaveProject_ok env proj c).
  assert (twice = Returned tt (set_projects
            (Some (kept ++ [row_of (clock w + dt) p])) (tick dt (final once))))
    as Htwice.
  { unfold twice. rewrite Honce.
    rewrite (SaveProject_ok env proj c p _ (kept ++ [row_of (clock w) p]));
      [|done..].
    unfold kept. by rewrite filter_other_id_add. }
  split_and!.
  - by rewrite Honce.
  - by rewrite Htwice.
  - by rewrite Htwice.
  - rewrite !fmap_app. cbn. by rewrite !record_of_row_of.
  - intros ->. rewrite Htwice, Honce. cbn. by rewrite Z.add_0_r.
Qed.

Lemma SaveProject_twice_witness :
  projects (final (SaveProject demo_env the_proj
                     (mkProject "123" "a" "/home/dev/a" "make up" "make down")
                     (tick 60 (final (SaveProject demo_env the_proj
                        (mkProject "123" "a" "/home/dev/a" "make up" "make down")
                        world_a)))))
    = Some [mkRow "123" "a" "/home/dev/a" "make up" "make down" 160].
Proof.
  refine (proj1 (proj2 (proj2 (SaveProject_twice demo_env the_proj (Conn DbPath)
            (mkProject "123" "a" "/home/dev/a" "make up" "make down")
            world_a [mkRow "123" "a" "/home/dev/a" "make up" "make down" 100]
            60 _ _ _ _)))); reflexivity.
Defined.

(** C6, counterexample: project [a] saved at clock 100 and again, unchanged,
    at clock 160; the table after the second save is not the table after the
    first. *)
Lemma SaveProject_twice_restamps :
  projects (final (SaveProject demo_env the_proj
                     (mkProject "123" "a" "/home/dev/a" "make up" "make down")
                     fresh_table))
    = Some [mkRow "123" "a" "/home/dev/a" "make up" "make down" 100] ∧
  projects (final (SaveProject demo_env the_proj
                     (mkProject "123" "a" "/home/dev/a" "make up" "make down")
                     (tick 60 (final (SaveProject demo_env the_proj
                        (mkProject "123" "a" "/home/dev/a" "make up" "make down")
                        fresh_table)))))
    = Some [mkRow "123" "a" "/home/dev/a" "make up" "make down" 160] ∧
  Some [mkRow "123" "a" "/home/dev/a" "make up" "make down" 160]
    ≠ Some [mkRow "123" "a" "/home/dev/a" "make up" "make down" 100].
Proof. split_and!; [reflexivity|reflexivity|discriminate]. Qed.

(** ** Init *)

(** C4: on any state the program can have produced, after an [init] that
    returns, the lookup [start] makes for the same name (with the statement
    compiling and running) returns the record with the id, name, path,
    command and tear-down that [init] wrote, and [start] goes on to run that
    command with that path. *)
Theorem init_then_lookup env env' name path command teardown w w1 w2 :
  reachable w →
  main env (initProject name path command teardown) w = Returned tt w1 →
  projects w2 = projects w1 →
  stmt_fault env' find = None → exec_fault env' find = None →
  LoadProject env' the_proj name w2
    = Returned (mkProject "123" name path command teardown) w2 ∧
  StartProject env' the_proj name w2 = run_loaded env' command path w2.
Proof.
  intros Hreach Hrun Hsame Hs He.
  pose proof (init_leaves_one_row env name path command teardown w w1
                (reachable_single_init_row w Hreach) Hrun) as Ht.
  rewrite <- Hsame in Ht.
  assert (LoadProject env' the_proj name w2
            = Returned (mkProject "123" name path command teardown) w2) as Hl.
  { change (mkProject "123" name path command teardown)
      with (record_of (mkRow "123" name path command teardown (clock w))).
    apply (LoadProject_found env' the_proj (Conn DbPath) name w2 _ _ []
             eq_refl Ht Hs He).
    rewrite filter_cons_True by done. reflexivity. }
  split; [exact Hl|].
  by rewrite (StartProject_loaded env' the_proj name w2 _ Hl).
Qed.

Lemma init_then_lookup_witness :
  LoadProject demo_env the_proj "b"
      (final (main demo_env (initProject "b" "/srv/b" "run" "halt") world_a))
    = Returned (mkProject "123" "b" "/srv/b" "run" "halt")
        (final (main demo_env (initProject "b" "/srv/b" "run" "halt") world_a)).
Proof.
  apply (init_then_lookup demo_env demo_env "b" "/srv/b" "run" "halt" world_a
           (final (main demo_env (initProject "b" "/srv/b" "run" "halt") world_a))).
  - exists fresh. split; [reflexivity|]. apply rtc_once, step_run.
  - vm_compute. reflexivity.
  - reflexivity.
  - reflexivity.
  - reflexivity.
Defined.

(** C8: on any state the program can have produced the table holds at most
    one row and its id is 123; an [init] that returns, whatever its flags,
    leaves exactly the row with id 123 and those flags; and a following
    [init] that returns leaves exactly its own row, so that a first project
    of a different name can no longer be looked up. *)
Theorem init_keeps_single_row w :
  reachable w →
  single_init_row w ∧
  ∀ env n1 p1 c1 t1 w1,
    main env (initProject n1 p1 c1 t1) w = Returned tt w1 →
    projects w1 = Some [mkRow "123" n1 p1 c1 t1 (clock w)] ∧
    ∀ env' n2 p2 c2 t2 w1' w2,
      projects w1' = projects w1 →
      main env' (initProject n2 p2 c2 t2) w1' = Returned tt w2 →
      projects w2 = Some [mkRow "123" n2 p2 c2 t2 (clock w1')] ∧
      (n1 ≠ n2 →
       LoadProject env' the_proj n1 w2
         = Exited 1 (emit (err_line "Failed to load project.") w2)).
Proof.
  intros Hreach.
  pose proof (reachable_single_init_row w Hreach) as Hinv.
  split; [exact Hinv|].
  intros env n1 p1 c1 t1 w1 Hrun1.
  pose proof (init_leaves_one_row env n1 p1 c1 t1 w w1 Hinv Hrun1) as Ht1.
  split; [exact Ht1|].
  intros env' n2 p2 c2 t2 w1' w2 Hsame Hrun2.
  assert (single_init_row w1') as Hinv1.
  { unfold single_init_row. rewrite Hsame, Ht1. cbn.
    split; [lia|]. by repeat constructor. }
  pose proof (init_leaves_one_row env' n2 p2 c2 t2 w1' w2 Hinv1 Hrun2) as Ht2.
  split; [exact Ht2|].
  intros Hne. apply (LoadProject_absent env' the_proj (Conn DbPath)); [done|].
  intros t. rewrite Ht2. intros [= <-].
  repeat constructor. cbn. congruence.
Qed.

Lemma init_keeps_single_row_witness :
  single_init_row world_a ∧
  projects (final (main demo_env (initProject "b" "/srv/b" "run" "halt") world_a))
    = Some [mkRow "123" "b" "/srv/b" "run" "halt" 100].
Proof.
  destruct (init_keeps_single_row world_a) as [Hone Hinit].
  - exists fresh. split; [reflexivity|]. apply rtc_once, step_run.
  - split; [exact Hone|].
    apply (Hinit demo_env "b" "/srv/b" "run" "halt"
             (final (main demo_env (initProject "b" "/srv/b" "run" "halt") world_a))).
    vm_compute. reflexivity.
Defined.

(** ** Failures *)





(** ** Further properties of the store operations *)

Section LookupFacts.

Implicit Types (t pre post : list Row) (r : Row).

(** The first row a filter keeps, and the rows before it. *)
Lemma filter_first (Q : Row → Prop) `{!∀ r, Decision (Q r)} t r rest :
  filter Q t = r :: rest →
  ∃ pre post, t = pre ++ r :: post ∧ Forall (λ r', ¬ Q r') pre ∧ Q r ∧
              rest = filter Q post.
Proof.
  induction t as [|r0 t IH]; [done|].
  destruct (decide (Q r0)) as [Hq|Hq].
  - rewrite filter_cons_True by done. intros [= -> <-].
    exists [], t. by repeat split.
  - rewrite filter_cons_False by done. intros Hf.
    destruct (IH Hf) as (pre & post & -> & Hpre & Hr & Hrest).
    exists (r0 :: pre), post. repeat split; [|done..]. by constructor.
Qed.

Lemma filter_at_first (Q : Row → Prop) `{!∀ r, Decision (Q r)} pre r post :
  Forall (λ r', ¬ Q r') pre → Q r →
  filter Q (pre ++ r :: post) = r :: filter Q post.
Proof.
  intros Hpre Hr. rewrite filter_app.
  replace (filter Q pre) with (@nil Row).
  - by rewrite filter_cons_True.
  - symmetry. induction Hpre as [|r0 pre H0 _ IH]; [done|].
    by rewrite filter_cons_False.
Qed.

Lemma filter_name_other_id (n i : string) t :
  filter (λ r, cName r = n) (filter (λ r, cId r ≠ i) t)
    = filter (λ r, cId r ≠ i) (filter (λ r, cName r = n) t).
Proof. rewrite !list_filter_filter. apply list_filter_iff. tauto. Qed.

Lemma filter_name_owned (n i : string) t :
  Forall (λ r, cName r = n → cId r = i) t →
  filter (λ r, cId r ≠ i) (filter (λ r, cName r = n) t) = [].
Proof.
  rewrite list_filter_filter.
  induction 1 as [|r t Hr _ IH]; [done|].
  rewrite filter_cons_False; [done|]. intros [Hid Hn]. by apply Hid, Hr.
Qed.

End LookupFacts.

Lemma set_projects_same w t : projects w = Some t → set_projects (Some t) w = w.
Proof. destruct w. cbn. by intros ->. Qed.

(** X1: what [LoadProject] returns is the record of a row of the table
    that carries exactly the name asked for, the first such row in scan
    order, and the call leaves the world as it was. *)
Theorem LoadProject_returns_first_match env proj name w project w' :
  LoadProject env proj name w = Returned project w' →
  w' = w ∧ Name project = name ∧
  ∃ pre r post,
    projects w = Some (pre ++ r :: post) ∧
    Forall (λ r', cName r' ≠ name) pre ∧
    project = record_of r.
Proof.
  destruct proj as [[c|]]; [|done].
  unfold LoadProject, db_QueryRow, compile, query_find. cbn [db]. run_M.
  destruct (stmt_fault env find); [done|].
  destruct (projects w) as [t|] eqn:Ht; [|done].
  destruct (exec_fault env find); [done|].
  change (default [] (Some t)) with t.
  destruct (filter (λ r, cName r = name) t) as [|r rest] eqn:Hf; [done|].
  cbn. intros [= <- <-].
  destruct (filter_first _ t r rest Hf) as (pre & post & -> & Hpre & Hr & _).
  split; [done|]. split; [done|]. by exists pre, r, post.
Qed.

Lemma LoadProject_returns_first_match_witness :
  world_a = world_a ∧
  Name (mkProject "123" "a" "/home/dev/a" "make up" "make down") = "a" ∧
  ∃ pre r post,
    projects world_a = Some (pre ++ r :: post) ∧
    Forall (λ r', cName r' ≠ "a") pre ∧
    mkProject "123" "a" "/home/dev/a" "make up" "make down" = record_of r.
Proof.
  apply (LoadProject_returns_first_match demo_env the_proj "a" world_a
           (mkProject "123" "a" "/home/dev/a" "make up" "make down") world_a).
  reflexivity.
Defined.

(** X2: a record saved under a name that no row of another id carries is
    the record the lookup of that name returns next. *)
Theorem SaveProject_then_LoadProject env proj c p w t :
  db proj = Some c → projects w = Some t →
  stmt_fault env add = None → exec_fault env add = None →
  stmt_fault env find = None → exec_fault env find = None →
  Forall (λ r, cName r = Name p → cId r = ID p) t →
  ∃ w', SaveProject env proj p w = Returned tt w' ∧
        LoadProject env proj (Name p) w' = Returned p w'.
Proof.
  intros Hdb Ht Hsa Hea Hsf Hef Hown.
  eexists. split; [by apply (SaveProject_ok env proj c)|].
  rewrite <- (record_of_row_of (clock w) p) at 3.
  eapply (LoadProject_found env proj c _ _ _ _ []); [done|reflexivity|done..|].
  rewrite filter_app, filter_name_other_id.
  rewrite (filter_name_owned (Name p) (ID p) t Hown), app_nil_l.
  by rewrite filter_cons_True.
Qed.

Lemma SaveProject_then_LoadProject_witness :
  ∃ w', SaveProject demo_env the_proj
          (mkProject "456" "b" "/srv/b" "run" "halt") world_a = Returned tt w' ∧
        LoadProject demo_env the_proj "b" w'
          = Returned (mkProject "456" "b" "/srv/b" "run" "halt") w'.
Proof.
  apply (SaveProject_then_LoadProject demo_env the_proj (Conn DbPath)
           (mkProject "456" "b" "/srv/b" "run" "halt") world_a
           [mkRow "123" "a" "/home/dev/a" "make up" "make down" 100]);
    try reflexivity.
  repeat constructor. cbn. discriminate.
Defined.

(** X3: when the oldest row of the record's name has another id,
    [SaveProject] returns and the lookup of that name still returns the
    older row's record, not the one just saved. *)
Theorem SaveProject_shadowed_by_older_row env proj c p w pre r post :
  db proj = Some c → projects w = Some (pre ++ r :: post) →
  stmt_fault env add = None → exec_fault env add = None →
  stmt_fault env find = None → exec_fault env find = None →
  Forall (λ r', cName r' ≠ Name p) pre →
  cName r = Name p → cId r ≠ ID p →
  ∃ w', SaveProject env proj p w = Returned tt w' ∧
        LoadProject env proj (Name p) w' = Returned (record_of r) w' ∧
        record_of r ≠ p.
Proof.
  intros Hdb Ht Hsa Hea Hsf Hef Hpre Hn Hid.
  eexists. split_and!; [by apply (SaveProject_ok env proj c)| |].
  - eapply (LoadProject_found env proj c); [done|reflexivity|done..|].
    rewrite filter_app, filter_name_other_id.
    rewrite (filter_at_first (λ r, cName r = Name p) pre r post Hpre Hn).
    rewrite filter_cons_True by done. reflexivity.
  - intros Heq. apply Hid. by rewrite <- Heq.
Qed.

Lemma SaveProject_shadowed_by_older_row_witness :
  ∃ w', SaveProject demo_env the_proj
          (mkProject "456" "a" "/srv/other" "run" "halt") world_a = Returned tt w' ∧
        LoadProject demo_env the_proj "a" w'
          = Returned (mkProject "123" "a" "/home/dev/a" "make up" "make down") w'.
Proof.
  destruct (SaveProject_shadowed_by_older_row demo_env the_proj (Conn DbPath)
              (mkProject "456" "a" "/srv/other" "run" "halt") world_a
              [] (mkRow "123" "a" "/home/dev/a" "make up" "make down" 100) [])
    as (w' & Hs & Hl & _); try reflexivity.
  - constructor.
  - discriminate.
  - exists w'. split; [exact Hs|exact Hl].
Defined.

(** ** Further properties of commit *)

Section CommitFacts.

Implicit Types (t : list Row) (r : Row) (p : Project).

Lemma update_unknown_id p t :
  ID p ∉ cId <$> t →
  set_row (Name p) (Command p) (Path p) (TearDown p) (ID p) <$> t = t.
Proof.
  induction t as [|r t IH]; [done|]. rewrite !fmap_cons.
  intros Hnin. apply not_elem_of_cons in Hnin as [Hr Ht].
  unfold set_row at 1. rewrite decide_False by done. by rewrite IH.
Qed.

Lemma update_same_record now p t :
  Forall (λ r, cId r ≠ ID p) t →
  set_row (Name p) (Command p) (Path p) (TearDown p) (ID p)
    <$> (t ++ [row_of now p]) = t ++ [row_of now p].
Proof.
  intros Hother. rewrite fmap_app. f_equal.
  - apply update_unknown_id. intros (r & Hid & Hin)%list_elem_of_fmap.
    rewrite Forall_forall in Hother. by apply (Hother r).
  - cbn. unfold set_row. by rewrite decide_True.
Qed.

(** After the update the rows of the record's name are the rewritten ones,
    and the first of them holds the record. *)
Lemma update_then_find p t :
  Forall (λ r, cName r = Name p → cId r = ID p) t →
  ID p ∈ cId <$> t →
  ∃ r' rest,
    filter (λ r, cName r = Name p)
      (set_row (Name p) (Command p) (Path p) (TearDown p) (ID p) <$> t)
      = r' :: rest ∧
    record_of r' = p.
Proof.
  induction 1 as [|r t Hr _ IH]; intros Hin; [by apply elem_of_nil in Hin|].
  rewrite fmap_cons in *. unfold set_row at 1.
  destruct (decide (cId r = ID p)) as [Hid|Hid].
  - rewrite filter_cons_True by done. eexists _, _. split; [done|].
    unfold record_of. cbn. rewrite Hid. by destruct p.
  - rewrite filter_cons_False by (intros Hn; by apply Hid, Hr).
    apply elem_of_cons in Hin as [Hin|Hin]; [by destruct Hid|]. by apply IH.
Qed.

Lemma update_drops_name p t (old : string) :
  old ≠ Name p →
  Forall (λ r, cName r = old → cId r = ID p) t →
  Forall (λ r, cName r ≠ old)
    (set_row (Name p) (Command p) (Path p) (TearDown p) (ID p) <$> t).
Proof.
  intros Hne Hown. apply Forall_fmap. eapply Forall_impl; [exact Hown|].
  intros r Hr. cbn. unfold set_row.
  destruct (decide (cId r = ID p)) as [Hid|Hid]; cbn; [congruence|].
  intros Hn. by apply Hid, Hr.
Qed.

End CommitFacts.

(** X4: when no row has the id of the sidecar record, [commit] returns as
    if it had worked: nothing is printed and the world is exactly as before. *)
Theorem commit_unknown_id_changes_nothing env proj c w data p t :
  db proj = Some c → projects w = Some t →
  files w !! file_id env (cwd w) "./proj.yml" = Some data →
  yaml_Unmarshal env data = (None, p) →
  stmt_fault env update = None → exec_fault env update = None →
  ID p ∉ cId <$> t →
  CommitChanges env proj w = Returned tt w.
Proof.
  intros Hdb Ht Hf Hu Hs He Hnin.
  rewrite (CommitChanges_parsed env proj w data p Hf Hu).
  rewrite (UpdateProject_ok env proj c p w t Hdb Ht Hs He).
  rewrite (update_unknown_id p t Hnin). by rewrite (set_projects_same w t Ht).
Qed.

(** X5: when a row has the id of the sidecar record and the record's name
    is carried by no row of another id, [commit] returns and the lookup of
    that name returns the record of the sidecar file; a name that only rows
    of that id carried, and that is not the record's, is no longer found. *)
Theorem commit_then_lookup env proj c w data p t :
  db proj = Some c → projects w = Some t →
  files w !! file_id env (cwd w) "./proj.yml" = Some data →
  yaml_Unmarshal env data = (None, p) →
  stmt_fault env update = None → exec_fault env update = None →
  stmt_fault env find = None → exec_fault env find = None →
  ID p ∈ cId <$> t →
  Forall (λ r, cName r = Name p → cId r = ID p) t →
  ∃ w',
    CommitChanges env proj w = Returned tt w' ∧
    LoadProject env proj (Name p) w' = Returned p w' ∧
    ∀ old, old ≠ Name p →
      Forall (λ r, cName r = old → cId r = ID p) t →
      LoadProject env proj old w'
        = Exited 1 (emit (err_line "Failed to load project.") w').
Proof.
  intros Hdb Ht Hf Hu Hs He Hsf Hef Hin Hown.
  set (t' := set_row (Name p) (Command p) (Path p) (TearDown p) (ID p) <$> t).
  exists (set_projects (Some t') w). split_and!.
  - rewrite (CommitChanges_parsed env proj w data p Hf Hu).
    by apply (UpdateProject_ok env proj c).
  - destruct (update_then_find p t Hown Hin) as (r' & rest & Hfind & Hrec).
    pose proof (LoadProject_found env proj c (Name p) (set_projects (Some t') w)
                  t' r' rest Hdb eq_refl Hsf Hef Hfind) as Hl.
    by rewrite Hrec in Hl.
  - intros old Hne Hold.
    apply (LoadProject_absent env proj c); [done|].
    intros t0. cbn. intros [= <-]. by apply update_drops_name.
Qed.

Lemma commit_unknown_id_changes_nothing_witness :
  CommitChanges demo_env the_proj
    (set_files (<["/home/dev/a/proj.yml" :=
                   strings_Join ["999"; "a"; "/srv/b"; "run"; "halt"] nl]>
                  (files world_a)) world_a)
  = Returned tt
    (set_files (<["/home/dev/a/proj.yml" :=
                   strings_Join ["999"; "a"; "/srv/b"; "run"; "halt"] nl]>
                  (files world_a)) world_a).
Proof.
  apply (commit_unknown_id_changes_nothing demo_env the_proj (Conn DbPath) _
           (strings_Join ["999"; "a"; "/srv/b"; "run"; "halt"] nl)
           (mkProject "999" "a" "/srv/b" "run" "halt")
           [mkRow "123" "a" "/home/dev/a" "make up" "make down" 100]);
    try reflexivity.
  cbn. intros Hin. apply list_elem_of_singleton in Hin. discriminate Hin.
Defined.

Lemma commit_then_lookup_witness :
  ∃ w',
    CommitChanges demo_env the_proj world_a_edited = Returned tt w' ∧
    LoadProject demo_env the_proj "b" w'
      = Returned (mkProject "123" "b" "/srv/b" "run" "halt") w' ∧
    LoadProject demo_env the_proj "a" w'
      = Exited 1 (emit (err_line "Failed to load project.") w').
Proof.
  destruct (commit_then_lookup demo_env the_proj (Conn DbPath) world_a_edited
              (strings_Join ["123"; "b"; "/srv/b"; "run"; "halt"] nl)
              (mkProject "123" "b" "/srv/b" "run" "halt")
              [mkRow "123" "a" "/home/dev/a" "make up" "make down" 100])
    as (w' & Hc & Hl & Hold); try reflexivity.
  - cbn. left.
  - repeat constructor.
  - exists w'. split_and!; [exact Hc|exact Hl|].
    apply Hold; [discriminate|]. repeat constructor.
Defined.

(** ** Init followed by commit *)

Lemma InitProject_returned_world env proj c p w w1 :
  db proj = Some c →
  InitProject env proj p w = Returned tt w1 →
  ∃ t data,
    projects w = Some t ∧ yaml_Marshal env p = (data, None) ∧
    w1 = set_projects
           (Some (filter (λ r, cId r ≠ ID p) t ++ [row_of (clock w) p]))
           (set_files
              (<[file_id env (cwd w) (Path p +:+ "/proj.yml") := data]> (files w)) w).
Proof.
  intros Hdb. unfold InitProject. unfold mbind at 1, M_bind at 1.
  destruct (yaml_Marshal env p) as [data [e|]] eqn:Hm.
  { by rewrite (CreateProjectFile_marshal_error env proj p w e data Hm). }
  destruct (write_fault env (file_id env (cwd w) (Path p +:+ "/proj.yml")))
    as [e|] eqn:Hw.
  { by rewrite (CreateProjectFile_write_error env proj p w e data Hm Hw). }
  rewrite (CreateProjectFile_ok env proj p w data Hm Hw).
  set (w' := set_files _ w).
  destruct (compile env add w') as [e|] eqn:Hc.
  { by rewrite (SaveProject_unprepared env proj c p w' e Hdb Hc). }
  destruct (exec_fault env add) as [e|] eqn:He.
  { by rewrite (SaveProject_exec_fault env proj c p w' e Hdb Hc He). }
  destruct (compile_ok env add w') as (Hs & t & Ht); [done|done|].
  rewrite (SaveProject_ok env proj c p w' t Hdb Ht Hs He).
  intros [= <-]. by exists t, data.
Qed.

(** X6: after an [init] that returns, a [commit] run from the project's
    directory on the file [init] wrote (the YAML library reading back what
    it wrote) returns, prints only its greeting and changes neither the
    table nor any file. *)
Theorem init_then_commit_changes_nothing env name path command teardown w w1 :
  main env (initProject name path command teardown) w = Returned tt w1 →
  file_id env (cwd w) "./proj.yml" = file_id env (cwd w) (path +:+ "/proj.yml") →
  yaml_Unmarshal env (yaml_Marshal env (mkProject "123" name path command teardown)).1
    = (None, mkProject "123" name path command teardown) →
  stmt_fault env update = None → exec_fault env update = None →
  main env commit w1 = Returned tt (emit (Colored Green "Updating...") w1).
Proof.
  intros Hrun Hid Hyaml Hsu Heu.
  destruct (main_returned env _ _ _ Hrun) as (Ho & Hs & He).
  rewrite (main_ready env _ w Ho Hs He) in Hrun.
  destruct (InitProject_returned_world env the_proj (Conn DbPath) _ _ _ eq_refl Hrun)
    as (t & data & Ht & Hm & ->).
  rewrite Hm in Hyaml. cbn [fst] in Hyaml.
  rewrite (main_ready env commit _ Ho Hs He).
  set (p := mkProject "123" name path command teardown) in *.
  set (kept := filter (λ r, cId r ≠ ID p) t).
  set (f := file_id env (cwd (with_table w)) (Path p +:+ "/proj.yml")).
  set (w1 := set_projects _ _).
  assert (with_table w1 = w1) as -> by reflexivity.
  rewrite color_Print_then.
  set (w2 := emit _ w1).
  assert (files w2 !! file_id env (cwd w2) "./proj.yml" = Some data) as Hfile.
  { cbn. rewrite Hid. apply lookup_insert_eq. }
  rewrite (CommitChanges_parsed env the_proj w2 data p Hfile Hyaml).
  rewrite (UpdateProject_ok env the_proj (Conn DbPath) p w2
             (kept ++ [row_of (clock w) p]) eq_refl eq_refl Hsu Heu).
  rewrite update_same_record.
  - reflexivity.
  - apply Forall_forall. intros r Hr.
    by apply list_elem_of_filter in Hr as [Hne _].
Qed.

Lemma init_then_commit_changes_nothing_witness :
  main demo_env commit world_a
    = Returned tt (emit (Colored Green "Updating...") world_a).
Proof.
  apply (init_then_commit_changes_nothing demo_env
           "a" "/home/dev/a" "make up" "make down" fresh world_a);
    vm_compute; reflexivity.
Defined.

(** ** What a run leaves alone *)

Lemma files_out_stable (f0 : gmap string string) : out_stable (λ w, files w = f0).
Proof. by intros w e. Qed.

Lemma files_stmt_stable (f0 : gmap string string) q :
  stmt_stable (λ w, files w = f0) q.
Proof. by intros w args d. Qed.

Lemma store_stmt_stable q : stmt_stable (λ w, is_Some (projects w)) q.
Proof.
  intros w args d [t Ht]. rewrite Ht.
  destruct q; cbn.
  - by intros [= <-].
  - destruct (exec_add _ _ _); [|done]. by intros [= <-].
  - destruct (exec_update _ _); [|done]. by intros [= <-].
  - by intros [= <-].
Qed.

(** X7: what the statements of the program itself write, a subprocess being
    taken by its result (what the command of [start] or [stop] writes on its
    own is outside the model).  The database file is the store and is kept
    apart from the other files: no run removes it, and every run that opens
    the store and creates the table leaves it in existence, also when there
    was none before.  Of the other files [commit], [start] and [stop] write
    none, and [init] writes at most the one file [proj.yml] under the given
    path, holding the YAML encoding of the record with id 123 and the flags;
    no other entry changes. *)
Theorem main_writes_only_sidecar env args w :
  (is_Some (projects w) → is_Some (projects (final (main env args w)))) ∧
  (open_fault env DbPath = None →
   stmt_fault env table = None → exec_fault env table = None →
     is_Some (projects (final (main env args w)))) ∧
  match args with
  | initProject name path command teardown =>
      files (final (main env args w)) = files w ∨
      files (final (main env args w)) =
        <[file_id env (cwd w) (path +:+ "/proj.yml") :=
            (yaml_Marshal env (mkProject "123" name path command teardown)).1]>
          (files w)
  | commit | start _ | stop _ => files (final (main env args w)) = files w
  end.
Proof.
  assert (∀ w0, is_Some (projects w0) →
                is_Some (projects (final (main env args w0)))) as Hkept.
  { intros w0 Hw0.
    apply (preserves_main env (λ w', is_Some (projects w'))); [by intros ? ?| | |done].
    - apply store_stmt_stable.
    - destruct args; cbn; try done; [|apply store_stmt_stable].
      split; [by intros ? ? ?|apply store_stmt_stable]. }
  split_and!.
  - apply Hkept.
  - intros Ho Hs He.
    assert (main env args w = main env args (with_table w)) as ->
      by (by rewrite !main_ready).
    by apply Hkept.
  - destruct args as [name path command teardown| |name|name].
    2-4: apply (preserves_main env (λ w', files w' = files w)
                  (files_out_stable _) _ (files_stmt_stable _ table));
      [cbn; try done; apply files_stmt_stable|done].
    destruct (open_fault env DbPath) as [e|] eqn:Ho.
    { left. unfold main. unfold mbind at 1, M_bind at 1.
      by rewrite (InitDB_fault env _ _ e Ho). }
    destruct (decide (stmt_fault env table = None ∧ exec_fault env table = None))
      as [[Hs He]|Hfault].
    2:{ left. unfold main. unfold mbind at 1, M_bind at 1.
        rewrite (InitDB_ok env _ _ Ho). unfold mbind at 1, M_bind at 1.
        rewrite CreateTable_fault; [done|].
        destruct (stmt_fault env table); [left; by eexists|].
        destruct (exec_fault env table); [right; by eexists|].
        by destruct Hfault. }
    rewrite (main_ready env _ w Ho Hs He).
    set (p := mkProject "123" name path command teardown).
    unfold InitProject. unfold mbind, M_bind.
    destruct (yaml_Marshal env p) as [data [e|]] eqn:Hm.
    { left. by rewrite (CreateProjectFile_marshal_error env _ p _ e data Hm). }
    destruct (write_fault env (file_id env (cwd (with_table w)) (Path p +:+ "/proj.yml")))
      as [e|] eqn:Hw.
    { left. by rewrite (CreateProjectFile_write_error env _ p _ e data Hm Hw). }
    rewrite (CreateProjectFile_ok env the_proj p _ data Hm Hw).
    right.
    set (w' := set_files _ _).
    destruct (preserves_SaveProject env (λ w0, files w0 = files w')
                (files_out_stable _) the_proj p (files_stmt_stable _ add) w' eq_refl)
      as [-> _].
    reflexivity.
Qed.

Lemma main_writes_only_sidecar_witness :
  projects fresh = None ∧
  is_Some (projects (final (main demo_env (start "ghost") fresh))) ∧
  files (final (main demo_env (start "ghost") fresh)) = files fresh.
Proof.
  destruct (main_writes_only_sidecar demo_env (start "ghost") fresh)
    as (_ & Hcreated & Hfiles).
  split_and!; [reflexivity|by apply Hcreated|exact Hfiles].
Defined.

Lemma rows_out_stable (t0 : list Row) : out_stable (λ w, rows w = t0).
Proof. by intros w e. Qed.

Lemma rows_table_stable (t0 : list Row) : stmt_stable (λ w, rows w = t0) table.
Proof.
  intros w args d Hw [= <-]. unfold rows in *. cbn. by destruct (projects w).
Qed.

(** X8: the statements that [start] and [stop] themselves run on the store,
    the creation of the table and the lookup, leave every row as it was,
    however the lookup ends and whatever the subprocess returns.  The
    subprocess is taken by its result: what the command it runs does to the
    store on its own is outside the model. *)
Theorem start_stop_leave_rows env name w :
  rows (final (main env (start name) w)) = rows w ∧
  rows (final (main env (stop name) w)) = rows w.
Proof.
  split.
  - by apply (preserves_main env (λ w', rows w' = rows w)
                (rows_out_stable _) (start name) (rows_table_stable _)).
  - by apply (preserves_main env (λ w', rows w' = rows w)
                (rows_out_stable _) (stop name) (rows_table_stable _)).
Qed.

Lemma has_id_stmt_stable (i : string) q :
  stmt_stable (λ w, i ∈ cId <$> rows w) q.
Proof.
  intros w args d Hw. unfold rows in *.
  destruct q; cbn.
  - intros [= <-]. cbn. by destruct (projects w).
  - destruct (projects w) as [t|]; [|done]. cbn in *.
    destruct (exec_add _ _ _) as [t'|] eqn:Hadd; [|done]. intros [= <-]. cbn.
    unfold exec_add in Hadd.
    destruct args as [|a1 [|a2 [|a3 [|a4 [|a5 [|]]]]]]; try done.
    injection Hadd as <-. rewrite fmap_app. apply elem_of_app.
    destruct (decide (i = a1)) as [->|Hne]; [right; cbn; left|left].
    apply list_elem_of_fmap in Hw as (r & -> & Hr).
    apply list_elem_of_fmap_2. by apply list_elem_of_filter.
  - destruct (projects w) as [t|]; [|done]. cbn in *.
    destruct (exec_update _ _) as [t'|] eqn:Hupd; [|done]. intros [= <-]. cbn.
    unfold exec_update in Hupd.
    destruct args as [|a1 [|a2 [|a3 [|a4 [|a5 [|]]]]]]; try done.
    injection Hupd as <-. by rewrite update_ids.
  - by intros [= <-].
Qed.

(** X9: no statement of the program removes an id from the table: an id
    that is in the table before a run, whatever the command and however the
    run ends, is in the table after it.  This is about ids, not about
    projects: the row that carries the id may have been replaced (a second
    [init] replaces the row of id 123) or rewritten (by [commit]); and a
    subprocess is taken by its result, so what the command of [start] or
    [stop] does to the store on its own is outside the model. *)
Theorem ids_never_removed env args w (i : string) :
  i ∈ cId <$> rows w → i ∈ cId <$> rows (final (main env args w)).
Proof.
  intros Hw.
  apply (preserves_main env (λ w, i ∈ cId <$> rows w));
    [by intros ? ?| | |done].
  - apply has_id_stmt_stable.
  - destruct args; cbn; try done; [|apply has_id_stmt_stable].
    split; [by intros ? ? ?|apply has_id_stmt_stable].
Qed.

Lemma ids_never_removed_witness :
  "123" ∈ cId <$> rows (final (main demo_env (start "ghost") world_a)).
Proof.
  apply (ids_never_removed demo_env (start "ghost") world_a "123").
  cbn. left.
Defined.

Lemma primary_key_stmt_stable q : stmt_stable (λ w, primary_key (rows w)) q.
Proof.
  intros w args d Hw. unfold rows in *.
  destruct q; cbn.
  - intros [= <-]. cbn. by destruct (projects w).
  - destruct (projects w) as [t|]; [|done]. cbn in *.
    destruct (exec_add _ _ _) as [t'|] eqn:Hadd; [|done]. intros [= <-]. cbn.
    unfold exec_add in Hadd.
    destruct args as [|a1 [|a2 [|a3 [|a4 [|a5 [|]]]]]]; try done.
    injection Hadd as <-.
    apply (add_primary_key (clock w) (mkProject a1 a2 a3 a4 a5) t Hw).
  - destruct (projects w) as [t|]; [|done]. cbn in *.
    destruct (exec_update _ _) as [t'|] eqn:Hupd; [|done]. intros [= <-]. cbn.
    unfold exec_update in Hupd.
    destruct args as [|a1 [|a2 [|a3 [|a4 [|a5 [|]]]]]]; try done.
    injection Hupd as <-. unfold primary_key. by rewrite update_ids.
  - by intros [= <-].
Qed.

(** X10: every run keeps the primary key: if no two rows share an id
    before a run, none do after it, whatever the command and however the
    run ends. *)
Theorem main_keeps_primary_key env args w :
  primary_key (rows w) → primary_key (rows (final (main env args w))).
Proof.
  intros Hw.
  apply (preserves_main env (λ w, primary_key (rows w)));
    [by intros ? ?| | |done].
  - apply primary_key_stmt_stable.
  - destruct args; cbn; try done; [|apply primary_key_stmt_stable].
    split; [by intros ? ? ?|apply primary_key_stmt_stable].
Qed.

Lemma main_keeps_primary_key_witness :
  primary_key
    (rows (final (main demo_env (initProject "b" "/srv/b" "run" "halt") world_a))).
Proof.
  apply (main_keeps_primary_key demo_env
           (initProject "b" "/srv/b" "run" "halt") world_a).
  apply NoDup_singleton.
Defined.

(** ** The command runner, on success and on a failed start *)

(** X11: when the command of a loaded record ends with status 0,
    [StartProject] (and [StopProject] for the tear-down command) returns;
    after the announcement and the start of the subprocess it prints the
    captured standard output in blue, and prints nothing when the command
    wrote nothing. *)
Theorem zero_exit_prints_output env proj name w project :
  LoadProject env proj name w = Returned project w →
  (∀ o e,
     run_proc env (sh_argv (Command project) (Path project)) (cwd w)
       = Finished 0 o e →
     StartProject env proj name w =
       Returned tt
         (if decide (o = "") then spawned (Command project) (Path project) w
          else emit (Colored Blue ("==> Output: " +:+ o +:+ nl))
                    (spawned (Command project) (Path project) w))) ∧
  (∀ o e,
     run_proc env (sh_argv (TearDown project) (Path project)) (cwd w)
       = Finished 0 o e →
     StopProject env proj name w =
       Returned tt
         (if decide (o = "") then spawned (TearDown project) (Path project) w
          else emit (Colored Blue ("==> Output: " +:+ o +:+ nl))
                    (spawned (TearDown project) (Path project) w))).
Proof.
  intros Hl. split; intros o e Hrun.
  - rewrite (StartProject_loaded env proj name w project Hl).
    unfold run_loaded. rewrite Hrun. cbn. apply printOutput_cases.
  - rewrite (StopProject_loaded env proj name w project Hl).
    unfold run_loaded. rewrite Hrun. cbn. apply printOutput_cases.
Qed.

Lemma zero_exit_prints_output_witness :
  StopProject demo_env the_proj "a" world_a
    = Returned tt (spawned "make down" "/home/dev/a" world_a).
Proof.
  refine (proj2 (zero_exit_prints_output demo_env the_proj "a" world_a
                   (mkProject "123" "a" "/home/dev/a" "make up" "make down") _)
            "" "" _); reflexivity.
Defined.

(** X12: when the shell cannot be started for a loaded record, the error
    of the start is the fatal message: [StartProject] and [StopProject]
    print the announcement and then end in [cliError] with that error; no
    subprocess has been started and no output is printed. *)
Theorem failed_start_is_fatal env proj name w project :
  LoadProject env proj name w = Returned project w →
  (∀ e,
     run_proc env (sh_argv (Command project) (Path project)) (cwd w)
       = NotStarted e →
     StartProject env proj name w =
       Exited 1 (emit (err_line e) (announced (Command project) (Path project) w))) ∧
  (∀ e,
     run_proc env (sh_argv (TearDown project) (Path project)) (cwd w)
       = NotStarted e →
     StopProject env proj name w =
       Exited 1 (emit (err_line e) (announced (TearDown project) (Path project) w))).
Proof.
  intros Hl. split; intros e Hrun.
  - rewrite (StartProject_loaded env proj name w project Hl).
    unfold run_loaded. by rewrite Hrun.
  - rewrite (StopProject_loaded env proj name w project Hl).
    unfold run_loaded. by rewrite Hrun.
Qed.

Lemma failed_start_is_fatal_witness :
  StartProject no_shell_env the_proj "a" world_a =
    Exited 1 (emit (err_line "exec: sh: executable file not found in $PATH")
                   (announced "make up" "/home/dev/a" world_a)).
Proof.
  refine (proj1 (failed_start_is_fatal no_shell_env the_proj "a" world_a
                   (mkProject "123" "a" "/home/dev/a" "make up" "make down") _)
            _ _); reflexivity.
Defined.

(** ** The earlier revision *)

Ltac run_V1 :=
  unfold mbind, V1.M_bind, mret, V1.M_ret, V1.get, V1.modify, V1.panic.

Section V1Facts.

Variable env : V1.Env.

Implicit Types (w : V1.World) (proj : V1.Proj) (p project : V1.Project).

Lemma v1_filter_name_absent (n : string) (t : list V1.Row) :
  Forall (λ r, V1.cName r ≠ n) t → filter (λ r, V1.cName r = n) t = [].
Proof.
  induction 1 as [|r t Hr _ IH]; [done|].
  by rewrite filter_cons_False.
Qed.

Lemma v1_filter_name_owned (n i : string) (t : list V1.Row) :
  Forall (λ r, V1.cName r = n → V1.cId r = i) t →
  filter (λ r, V1.cName r = n) (filter (λ r, V1.cId r ≠ i) t) = [].
Proof.
  rewrite list_filter_filter.
  induction 1 as [|r t Hr _ IH]; [done|].
  rewrite filter_cons_False; [done|]. intros [Hn Hid]. by apply Hid, Hr.
Qed.

Lemma v1_LoadProject_found proj c name w t r rest :
  V1.db proj = Some c → V1.projects w = Some t →
  V1.stmt_fault env V1.find = None → V1.exec_fault env V1.find = None →
  filter (λ r, V1.cName r = name) t = r :: rest →
  V1.LoadProject env proj name w = V1.Returned (V1.record_of r) w.
Proof.
  intros Hdb Ht Hs He Hf.
  unfold V1.LoadProject, V1.db_QueryRow, V1.compile, V1.query_find.
  rewrite Hdb. run_V1. rewrite Hs, He, Ht. change (default [] (Some t)) with t.
  rewrite Hf. reflexivity.
Qed.

Lemma v1_SaveProject_ok proj c p w t :
  V1.db proj = Some c → V1.projects w = Some t →
  V1.stmt_fault env V1.sqlAdd = None → V1.exec_fault env V1.sqlAdd = None →
  V1.SaveProject env proj p w =
    V1.Returned tt (V1.set_projects
      (Some (filter (λ r, V1.cId r ≠ V1.ID p) t ++ [V1.row_of (V1.clock w) p])) w).
Proof.
  intros Hdb Ht Hs He.
  unfold V1.SaveProject, V1.db_Prepare, V1.stmt_Exec, V1.stmt_Close,
    V1.run_stmt, V1.compile.
  rewrite Hdb. run_V1. rewrite Hs, Ht, He. cbn. rewrite Ht. reflexivity.
Qed.

Lemma v1_printOutput_cases outs w :
  V1.printOutput outs w =
    V1.Returned tt
      (if decide (outs = "") then w
       else V1.emit (V1.Colored Blue ("==> Output: " +:+ outs +:+ nl)) w).
Proof. by destruct outs. Qed.

Lemma v1_StartProject_loaded proj name w project :
  V1.LoadProject env proj name w = V1.Returned project w →
  V1.StartProject env proj name w = V1.reported env project w.
Proof.
  intros Hl. unfold V1.StartProject. unfold mbind at 1, V1.M_bind at 1.
  rewrite Hl. unfold V1.reported, V1.cmd_Output, V1.printCommand, V1.printError,
    V1.color_Print.
  run_V1. cbn.
  destruct (V1.run_proc env _ _) as [e|status o e]; [reflexivity|].
  by destruct (decide (status = 0)).
Qed.

(** Whatever the subprocess does the report returns.  The command line is
    printed in every case; a subprocess is recorded only when it started,
    and then it comes first. *)
Lemma v1_reported_trace project w :
  ∃ w' new,
    V1.reported env project w = V1.Returned tt w' ∧
    V1.out w' = V1.out w ++ new ∧
    (∀ argv dir, V1.Spawned argv dir ∈ new →
       argv = ["sh"; "-c"; V1.Command project; V1.Path project] ∧ dir = V1.cwd w) ∧
    (∀ status o e,
       V1.run_proc env ["sh"; "-c"; V1.Command project; V1.Path project] (V1.cwd w)
         = Finished status o e →
       ∃ rest,
         new =
           V1.Spawned ["sh"; "-c"; V1.Command project; V1.Path project] (V1.cwd w) ::
           V1.Colored Magenta
             ("==> Executing: " +:+ (V1.Command project +:+ V1.Path project) +:+ nl) ::
           rest ∧
         ∀ argv dir, V1.Spawned argv dir ∉ rest) ∧
    (∀ e,
       V1.run_proc env ["sh"; "-c"; V1.Command project; V1.Path project] (V1.cwd w)
         = NotStarted e →
       new =
         [V1.Colored Magenta
            ("==> Executing: " +:+ (V1.Command project +:+ V1.Path project) +:+ nl);
          V1.ErrWritten ("==> Error: " +:+ e +:+ nl)]).
Proof.
  set (argv0 := ["sh"; "-c"; V1.Command project; V1.Path project]).
  set (line := "==> Executing: " +:+ (V1.Command project +:+ V1.Path project) +:+ nl).
  assert (∀ rest,
            (∀ argv dir, V1.Spawned argv dir ∉ rest) →
            ∀ argv dir,
              V1.Spawned argv dir ∈
                V1.Spawned argv0 (V1.cwd w) :: V1.Colored Magenta line :: rest →
              argv = argv0 ∧ dir = V1.cwd w) as Hhead.
  { intros rest Hrest argv dir [Heq|Hin]%elem_of_cons.
    - by injection Heq as -> ->.
    - apply elem_of_cons in Hin as [?|Hin]; [done|].
      by destruct (Hrest argv dir). }
  assert (∀ l, Forall (λ ev, ∀ argv dir, ev ≠ V1.Spawned argv dir) l →
               ∀ argv dir, V1.Spawned argv dir ∉ l) as Hnone.
  { intros l Hl argv dir Hin. rewrite Forall_forall in Hl.
    by apply (Hl _ Hin argv dir). }
  unfold V1.reported. fold argv0.
  destruct (V1.run_proc env argv0 (V1.cwd w)) as [e|status o e].
  - eexists _, [_; _]. split_and!.
    + reflexivity.
    + cbn. by rewrite <- !app_assoc.
    + intros argv dir Hin. exfalso. revert Hin. apply Hnone.
      repeat constructor; done.
    + discriminate.
    + by intros ? [= <-].
  - destruct (decide (status = 0)); rewrite v1_printOutput_cases;
      destruct (decide (o = "")).
    all: eexists _, (_ :: _ :: _); split_and!;
      [reflexivity
      |cbn; rewrite <- ?app_assoc; reflexivity
      |apply Hhead, Hnone; repeat constructor; done
      |intros ? ? ? _; eexists; split; [done|];
       apply Hnone; repeat constructor; done
      |discriminate].
Qed.

End V1Facts.

(** X13: in the earlier revision a command that ends with a non-zero status
    does not end the run: for a loaded record [StartProject] returns, having
    started the subprocess, printed the command line, written
    [==> Error: exit status N] to standard error and printed the captured
    output if there is any. *)
Theorem v1_nonzero_exit_is_reported env proj name w project status o e :
  V1.LoadProject env proj name w = V1.Returned project w →
  V1.run_proc env ["sh"; "-c"; V1.Command project; V1.Path project] (V1.cwd w)
    = Finished status o e →
  status ≠ 0 →
  V1.StartProject env proj name w =
    V1.Returned tt
      (let w1 := V1.emit (V1.ErrWritten ("==> Error: " +:+ exit_error status +:+ nl))
                         (V1.started project w) in
       if decide (o = "") then w1
       else V1.emit (V1.Colored Blue ("==> Output: " +:+ o +:+ nl)) w1).
Proof.
  intros Hl Hrun Hne.
  rewrite (v1_StartProject_loaded env proj name w project Hl).
  unfold V1.reported. rewrite Hrun.
  rewrite decide_False by done. apply v1_printOutput_cases.
Qed.

Lemma v1_nonzero_exit_is_reported_witness :
  V1.exit_status (V1.StartProject V1.demo_env V1.the_proj "a" V1.demo_world) = 0 ∧
  V1.out (V1.final (V1.StartProject V1.demo_env V1.the_proj "a" V1.demo_world)) =
    [V1.Spawned ["sh"; "-c"; "make up"; "/home/dev/a"] "/home/dev/a";
     V1.Colored Magenta ("==> Executing: make up/home/dev/a" +:+ nl);
     V1.ErrWritten ("==> Error: exit status 3" +:+ nl);
     V1.Colored Blue ("==> Output: partial" +:+ nl)].
Proof.
  rewrite (v1_nonzero_exit_is_reported V1.demo_env V1.the_proj "a" V1.demo_world
             (V1.mkProject "123" "a" "/home/dev/a" "make up") 3 "partial" "bad");
    [split; reflexivity|reflexivity|reflexivity|discriminate].
Defined.

(** X14: in the earlier revision [StartProject] never ends the process once
    the record is loaded: whatever the subprocess does, also when it cannot
    be started, the call returns.  Every subprocess it starts is [sh -c] on
    the record's command and path in the caller's directory; when the shell
    starts, the subprocess comes before the printed command line, and that
    line shows the command and the path joined with nothing between them;
    when the shell cannot be started, nothing is started and the call prints
    the command line and writes the start error to standard error. *)
Theorem v1_start_returns_after_load env proj name w project :
  V1.LoadProject env proj name w = V1.Returned project w →
  ∃ w' new,
    V1.StartProject env proj name w = V1.Returned tt w' ∧
    V1.out w' = V1.out w ++ new ∧
    (∀ argv dir, V1.Spawned argv dir ∈ new →
       argv = ["sh"; "-c"; V1.Command project; V1.Path project] ∧ dir = V1.cwd w) ∧
    (∀ status o e,
       V1.run_proc env ["sh"; "-c"; V1.Command project; V1.Path project] (V1.cwd w)
         = Finished status o e →
       ∃ rest,
         new =
           V1.Spawned ["sh"; "-c"; V1.Command project; V1.Path project] (V1.cwd w) ::
           V1.Colored Magenta
             ("==> Executing: " +:+ (V1.Command project +:+ V1.Path project) +:+ nl) ::
           rest ∧
         ∀ argv dir, V1.Spawned argv dir ∉ rest) ∧
    (∀ e,
       V1.run_proc env ["sh"; "-c"; V1.Command project; V1.Path project] (V1.cwd w)
         = NotStarted e →
       new =
         [V1.Colored Magenta
            ("==> Executing: " +:+ (V1.Command project +:+ V1.Path project) +:+ nl);
          V1.ErrWritten ("==> Error: " +:+ e +:+ nl)]).
Proof.
  intros Hl. rewrite (v1_StartProject_loaded env proj name w project Hl).
  apply v1_reported_trace.
Qed.

Lemma v1_start_returns_after_load_witness :
  ∃ w' new,
    V1.StartProject V1.demo_env V1.the_proj "a" V1.demo_world = V1.Returned tt w' ∧
    V1.out w' = V1.out V1.demo_world ++ new ∧
    ∃ rest,
      new =
        V1.Spawned ["sh"; "-c"; "make up"; "/home/dev/a"] "/home/dev/a" ::
        V1.Colored Magenta ("==> Executing: " +:+ ("make up" +:+ "/home/dev/a") +:+ nl) ::
        rest ∧
      ∀ argv dir, V1.Spawned argv dir ∉ rest.
Proof.
  destruct (v1_start_returns_after_load V1.demo_env V1.the_proj "a" V1.demo_world
              (V1.mkProject "123" "a" "/home/dev/a" "make up"))
    as (w' & new & Hrun & Hout & _ & Hstarted & _); [reflexivity|].
  exists w', new. split_and!; [exact Hrun|exact Hout|].
  apply (Hstarted 3 "partial" "bad"). reflexivity.
Defined.

(** X15: in the earlier revision the lookup of a name that no row carries
    ends in a panic, not in an exit: the logger prints the driver's
    [no rows] error and the process panics with it; [StartProject] ends the
    same way, before any subprocess. *)
Theorem v1_lookup_absent_panics env proj c name w t :
  V1.db proj = Some c → V1.projects w = Some t →
  V1.stmt_fault env V1.find = None → V1.exec_fault env V1.find = None →
  Forall (λ r, V1.cName r ≠ name) t →
  V1.LoadProject env proj name w
    = V1.Panicked ErrNoRows (V1.emit (V1.Logged ErrNoRows) w) ∧
  V1.StartProject env proj name w
    = V1.Panicked ErrNoRows (V1.emit (V1.Logged ErrNoRows) w).
Proof.
  intros Hdb Ht Hs He Habs.
  assert (V1.LoadProject env proj name w
            = V1.Panicked ErrNoRows (V1.emit (V1.Logged ErrNoRows) w)) as Hl.
  { unfold V1.LoadProject, V1.db_QueryRow, V1.compile, V1.query_find.
    rewrite Hdb. run_V1. rewrite Hs, He, Ht. change (default [] (Some t)) with t.
    by rewrite (v1_filter_name_absent name t Habs). }
  split; [exact Hl|].
  unfold V1.StartProject. unfold mbind at 1, V1.M_bind at 1. by rewrite Hl.
Qed.

Lemma v1_lookup_absent_panics_witness :
  V1.LoadProject V1.demo_env V1.the_proj "ghost" V1.demo_world
    = V1.Panicked ErrNoRows (V1.emit (V1.Logged ErrNoRows) V1.demo_world).
Proof.
  apply (v1_lookup_absent_panics V1.demo_env V1.the_proj (V1.Conn V1.DbPath)
           "ghost" V1.demo_world [V1.mkRow "123" "a" "/home/dev/a" "make up" 100]);
    try reflexivity.
  repeat constructor. discriminate.
Defined.

(** X16: in the earlier revision [SaveProject] reads the error of
    [Prepare]: when preparing the insert fails the logger prints that error
    and the process panics with it, the statement is never executed and the
    table is as before. *)
Theorem v1_save_reports_prepare_error env proj c p w e :
  V1.db proj = Some c → V1.compile env V1.sqlAdd w = Some e →
  V1.SaveProject env proj p w = V1.Panicked e (V1.emit (V1.Logged e) w).
Proof.
  intros Hdb Hc. unfold V1.SaveProject, V1.db_Prepare. rewrite Hdb. run_V1.
  rewrite Hc. reflexivity.
Qed.

Lemma v1_save_reports_prepare_error_witness :
  V1.SaveProject V1.demo_env V1.the_proj (V1.mkProject "123" "a" "/home/dev/a" "make up")
      (V1.set_projects None V1.demo_world)
    = V1.Panicked no_such_table
        (V1.emit (V1.Logged no_such_table) (V1.set_projects None V1.demo_world)).
Proof.
  apply (v1_save_reports_prepare_error V1.demo_env V1.the_proj (V1.Conn V1.DbPath));
    reflexivity.
Defined.

(** X17: in the earlier revision a record saved under a name that no row
    of another id carries is the record the lookup of that name returns
    next, with its four fields as written. *)
Theorem v1_save_then_load env proj c p w t :
  V1.db proj = Some c → V1.projects w = Some t →
  V1.stmt_fault env V1.sqlAdd = None → V1.exec_fault env V1.sqlAdd = None →
  V1.stmt_fault env V1.find = None → V1.exec_fault env V1.find = None →
  Forall (λ r, V1.cName r = V1.Name p → V1.cId r = V1.ID p) t →
  ∃ w', V1.SaveProject env proj p w = V1.Returned tt w' ∧
        V1.LoadProject env proj (V1.Name p) w' = V1.Returned p w'.
Proof.
  intros Hdb Ht Hsa Hea Hsf Hef Hown.
  eexists. split; [by apply (v1_SaveProject_ok env proj c)|].
  assert (V1.record_of (V1.row_of (V1.clock w) p) = p) as Hrec by by destruct p.
  rewrite <- Hrec at 3.
  eapply (v1_LoadProject_found env proj c _ _ _ _ []); [done|reflexivity|done..|].
  rewrite filter_app, (v1_filter_name_owned _ _ t Hown), app_nil_l.
  by rewrite filter_cons_True.
Qed.

Lemma v1_save_then_load_witness :
  ∃ w', V1.SaveProject V1.demo_env V1.the_proj
          (V1.mkProject "123" "b" "/srv/b" "run") V1.demo_world = V1.Returned tt w' ∧
        V1.LoadProject V1.demo_env V1.the_proj "b" w'
          = V1.Returned (V1.mkProject "123" "b" "/srv/b" "run") w'.
Proof.
  apply (v1_save_then_load V1.demo_env V1.the_proj (V1.Conn V1.DbPath)
           (V1.mkProject "123" "b" "/srv/b" "run") V1.demo_world
           [V1.mkRow "123" "a" "/home/dev/a" "make up" 100]);
    try reflexivity.
  repeat constructor.
Defined.

Lemma v1_main_init_returned env name path command w w1 :
  V1.main env (V1.initProject name path command) w = V1.Returned tt w1 →
  V1.open_fault env V1.DbPath = None ∧
  V1.stmt_fault env V1.table = None ∧ V1.exec_fault env V1.table = None ∧
  ∃ data,
    V1.yaml_Marshal env (V1.mkProject "123" name path command) = (data, None) ∧
    w1 = V1.set_projects
           (Some (filter (λ r, V1.cId r ≠ "123") (default [] (V1.projects w))
                  ++ [V1.mkRow "123" name path command (V1.clock w)]))
           (V1.set_files
              (<[V1.file_id env (V1.cwd w) (path +:+ "/proj.yml") := data]>
                 (V1.files w))
              (V1.emit (V1.Printed name)
                 (V1.set_projects (Some (default [] (V1.projects w))) w))).
Proof.
  unfold V1.main, V1.InitDB, V1.sql_Open, V1.CreateTable, V1.db_Exec, V1.InitProject,
    V1.CreateProjectFile, V1.SaveProject, V1.db_Prepare, V1.stmt_Exec, V1.stmt_Close,
    V1.run_stmt, V1.compile, V1.ioutil_WriteFile, V1.fmt_Println, V1.panic_on,
    V1.log_Panic_on, V1.NewProj.
  run_V1. cbn.
  destruct (V1.open_fault env V1.DbPath); [done|]. cbn.
  destruct (V1.stmt_fault env V1.table); [done|].
  destruct (V1.exec_fault env V1.table); [done|]. cbn.
  destruct (V1.yaml_Marshal env _) as [data [e|]]; [done|]. cbn.
  destruct (V1.write_fault env _); [done|]. cbn.
  destruct (V1.stmt_fault env V1.sqlAdd); [done|]. cbn.
  destruct (V1.exec_fault env V1.sqlAdd); [done|]. cbn.
  intros [= <-]. split_and!; [done..|]. by exists data.
Qed.

Lemma v1_main_start_ready env name w t :
  V1.open_fault env V1.DbPath = None →
  V1.stmt_fault env V1.table = None → V1.exec_fault env V1.table = None →
  V1.projects w = Some t →
  V1.main env (V1.start name) w =
    V1.StartProject env V1.the_proj name (V1.emit (V1.Printed ("Starting " +:+ name)) w).
Proof.
  intros Ho Hs He Ht.
  unfold V1.main, V1.InitDB, V1.sql_Open, V1.CreateTable, V1.db_Exec,
    V1.run_stmt, V1.compile, V1.fmt_Println, V1.panic_on.
  run_V1. rewrite Ho. cbn. rewrite Hs, He. cbn. rewrite Ht. cbn.
  destruct w. cbn in *. by rewrite Ht.
Qed.

(** X18: in the earlier revision, after an [init] that returns on a table
    where no row of another id carries the name, a following [start] of
    that name (the query not failing) returns with status 0 whatever the
    subprocess does; every subprocess it starts is [sh -c] on the command
    and the path [init] was given, in the caller's directory; when the
    shell starts there is exactly one, started right after the greeting,
    and when it cannot be started there is none. *)
Theorem v1_init_then_start env name path command w w1 :
  V1.main env (V1.initProject name path command) w = V1.Returned tt w1 →
  Forall (λ r, V1.cName r = name → V1.cId r = "123") (default [] (V1.projects w)) →
  V1.stmt_fault env V1.find = None → V1.exec_fault env V1.find = None →
  V1.exit_status (V1.main env (V1.start name) w1) = 0 ∧
  ∃ new,
    V1.out (V1.final (V1.main env (V1.start name) w1)) =
      V1.out w1 ++ V1.Printed ("Starting " +:+ name) :: new ∧
    (∀ argv dir, V1.Spawned argv dir ∈ new →
       argv = ["sh"; "-c"; command; path] ∧ dir = V1.cwd w1) ∧
    (∀ status o e,
       V1.run_proc env ["sh"; "-c"; command; path] (V1.cwd w1)
         = Finished status o e →
       ∃ rest,
         new = V1.Spawned ["sh"; "-c"; command; path] (V1.cwd w1) :: rest ∧
         ∀ argv dir, V1.Spawned argv dir ∉ rest) ∧
    (∀ e,
       V1.run_proc env ["sh"; "-c"; command; path] (V1.cwd w1) = NotStarted e →
       ∀ argv dir, V1.Spawned argv dir ∉ new).
Proof.
  intros Hrun Hown Hsf Hef.
  destruct (v1_main_init_returned env name path command w w1 Hrun)
    as (Ho & Hs & He & data & _ & Hw1).
  set (t1 := filter (λ r, V1.cId r ≠ "123") (default [] (V1.projects w))
             ++ [V1.mkRow "123" name path command (V1.clock w)]) in Hw1.
  assert (V1.projects w1 = Some t1) as Ht1 by by rewrite Hw1.
  rewrite (v1_main_start_ready env name w1 t1 Ho Hs He Ht1).
  set (w2 := V1.emit (V1.Printed ("Starting " +:+ name)) w1).
  assert (V1.LoadProject env V1.the_proj name w2
            = V1.Returned (V1.mkProject "123" name path command) w2) as Hl.
  { change (V1.mkProject "123" name path command)
      with (V1.record_of (V1.mkRow "123" name path command (V1.clock w))).
    apply (v1_LoadProject_found env V1.the_proj (V1.Conn V1.DbPath) name w2 t1 _ []);
      [done|done|done|done|].
    unfold t1. rewrite filter_app, (v1_filter_name_owned _ _ _ Hown), app_nil_l.
    by rewrite filter_cons_True. }
  rewrite (v1_StartProject_loaded env V1.the_proj name w2 _ Hl).
  destruct (v1_reported_trace env (V1.mkProject "123" name path command) w2)
    as (w' & new & Hstart & Hout & Hall & Hfin & Hnot).
  rewrite Hstart. split; [done|].
  exists new. split_and!.
  - cbn [V1.final]. rewrite Hout. cbn. by rewrite <- app_assoc.
  - exact Hall.
  - intros status o e Hproc. destruct (Hfin status o e Hproc) as (rest & -> & Hrest).
    eexists. split; [reflexivity|].
    intros argv dir Hin. apply (Hrest argv dir).
    by apply elem_of_cons in Hin as [?|Hin].
  - intros e Hproc argv dir. rewrite (Hnot e Hproc).
    intros Hin. by repeat (apply elem_of_cons in Hin as [?|Hin]; [done|]);
      apply elem_of_nil in Hin.
Qed.

Lemma v1_init_then_start_witness :
  V1.exit_status
    (V1.main V1.demo_env (V1.start "b")
       (V1.final (V1.main V1.demo_env (V1.initProject "b" "/srv/b" "run") V1.demo_world)))
    = 0.
Proof.
  apply (v1_init_then_start V1.demo_env "b" "/srv/b" "run" V1.demo_world
           (V1.final (V1.main V1.demo_env (V1.initProject "b" "/srv/b" "run")
                        V1.demo_world))).
  - vm_compute. reflexivity.
  - repeat constructor.
  - reflexivity.
  - reflexivity.
Defined.
